(** * Whisper-Finetune: the LoRA fine-tuning script [finetune.py]

    A shallow embedding of the script and of the two functions it defines
    ([prepare_dataset] and [SavePeftModelCallback.on_save]), with the
    external collaborators (transformers, peft, datasets) taken as a record
    of operations, and the properties of the checkpoint policy and of the
    data-preparation contract proved over it. *)

From Stdlib Require Import ZArith QArith String Ascii List Lia.
From stdpp Require Import base option list gmap strings pretty.

Local Open Scope string_scope.
Local Open Scope Z_scope.
Local Open Scope list_scope.

(** ** [os.path] on POSIX paths *)

Definition sep : ascii := "/"%char.

Definition startswith_sep (s : string) : bool :=
  match s with
  | String c _ => Ascii.eqb c sep
  | EmptyString => false
  end.

Fixpoint endswith_sep (s : string) : bool :=
  match s with
  | EmptyString => false
  | String c EmptyString => Ascii.eqb c sep
  | String _ r => endswith_sep r
  end.

(** [posixpath.join(a, b)]: an absolute [b] replaces [a]; otherwise the two
    are glued with exactly one separator unless [a] is empty or already ends
    with one. *)
Definition os_path_join (a b : string) : string :=
  if startswith_sep b then b
  else if (String.eqb a "" || endswith_sep a)%bool then a +:+ b
  else a +:+ String sep b.

Fixpoint contains_sep (s : string) : bool :=
  match s with
  | EmptyString => false
  | String c r => (Ascii.eqb c sep || contains_sep r)%bool
  end.

(** [p[:p.rfind('/') + 1]] *)
Fixpoint upto_last_sep (p : string) : string :=
  match p with
  | EmptyString => EmptyString
  | String c r =>
      if (Ascii.eqb c sep || contains_sep r)%bool
      then String c (upto_last_sep r) else EmptyString
  end.

(** [head == '/' * len(head)] *)
Fixpoint all_sep (s : string) : bool :=
  match s with
  | EmptyString => true
  | String c r => (Ascii.eqb c sep && all_sep r)%bool
  end.

(** [head.rstrip('/')] *)
Fixpoint rstrip_sep (s : string) : string :=
  match s with
  | EmptyString => EmptyString
  | String c r => if all_sep (String c r) then EmptyString else String c (rstrip_sep r)
  end.

(** [posixpath.dirname(p)] *)
Definition os_path_dirname (p : string) : string :=
  let head := upto_last_sep p in
  if (negb (String.eqb head "") && negb (all_sep head))%bool
  then rstrip_sep head else head.

(** ** Python exceptions *)

Inductive exn :=
| AssertionError (msg : string)
| KeyError (key : string)
| TypeError
| IndexError
| FileNotFoundError (path : string)
| IsADirectoryError (path : string)
| LibraryError (msg : string).

(** ** Plain records of the script and of the framework *)

(** The [argparse] namespace, lines 18-34.  Floats are only passed through,
    so a rational stands for them. *)
Module Args.
Record t := Build {
  train_data : string;
  test_data : string;
  base_model : string;
  output_path : string;
  logging_steps : Z;
  warmup_steps : Z;
  num_workers : Z;
  learning_rate : Q;
  num_train_epochs : Z;
  task : string;
  resume_from_checkpoint : option string;
  per_device_train_batch_size : Z;
  per_device_eval_batch_size : Z;
  gradient_accumulation_steps : Z;
  generation_max_length : Z }.

Definition set_output_path (v : string) (a : t) : t :=
    Build (train_data a) (test_data a) (base_model a) v (logging_steps a)
      (warmup_steps a) (num_workers a) (learning_rate a) (num_train_epochs a)
      (task a) (resume_from_checkpoint a) (per_device_train_batch_size a)
      (per_device_eval_batch_size a) (gradient_accumulation_steps a)
      (generation_max_length a).

(** The defaults of lines 19-33. *)
Definition default : t :=
    Build "dataset/train.json" "dataset/test.json" "openai/whisper-large-v2"
      "models/whisper-large-v2-lora" 100 50 8 (1 # 1000) 3 "transcribe" None
      8 8 1 128.
End Args.

(** The keyword arguments of [Seq2SeqTrainingArguments], lines 78-93, and
    [local_rank], which the framework fills in from the process environment. *)
Module TrainingArguments.
Record t := Build {
  output_dir : string;
  per_device_train_batch_size : Z;
  gradient_accumulation_steps : Z;
  learning_rate : Q;
  warmup_steps : Z;
  num_train_epochs : Z;
  save_strategy : string;
  evaluation_strategy : string;
  fp16 : bool;
  report_to : list string;
  dataloader_num_workers : Z;
  per_device_eval_batch_size : Z;
  generation_max_length : Z;
  logging_steps : Z;
  remove_unused_columns : bool;
  label_names : list string;
  local_rank : Z }.
End TrainingArguments.

Record TrainerState := { global_step : Z }.

Record TrainerControl := {
  should_training_stop : bool;
  should_epoch_stop : bool;
  should_save : bool;
  should_evaluate : bool;
  should_log : bool }.

(** The keyword arguments of [LoraConfig], line 70. *)
Module LoraConfig.
Record t := Build {
  r : Z;
  lora_alpha : Z;
  target_modules : list string;
  lora_dropout : Q;
  bias : string }.
End LoraConfig.

(** [model.config], as far as the script touches it. *)
Record ModelConfig := {
  forced_decoder_ids : option (list (Z * Z));
  suppress_tokens : list Z;
  use_cache : bool }.

(** One row of the JSON dataset. *)
Record raw_record := { audio_path : string; sentence : string }.

(** A file-system entry. *)
Inductive node := File (data : string) | Dir.

(** Modelled from the spec: the constant [PREFIX_CHECKPOINT_DIR] of
    [transformers.trainer_utils], which the spec's layout
    [<output_dir>/checkpoint-<step>/] fixes. *)
Definition PREFIX_CHECKPOINT_DIR : string := "checkpoint".

Section Finetune.

(** Audio samples, log-Mel features and network weights are opaque to the
    script: it only hands them from one collaborator to the next. *)
Variables (waveform features network : Type).

(** A decoded audio example: [a["array"]] and [a["sampling_rate"]]. *)
Record audio := { array : waveform; sampling_rate : Z }.

(** The columns a batch dictionary holds. *)
Inductive pyval :=
| VAudio (l : list audio)
| VSentence (l : list string)
| VFeatures (l : list features)
| VLabels (l : list (list Z)).

Record Model := { config : ModelConfig; net : network }.

Definition set_forced_decoder_ids (v : option (list (Z * Z))) (m : Model) : Model :=
  {| config := {| forced_decoder_ids := v;
                  suppress_tokens := suppress_tokens (config m);
                  use_cache := use_cache (config m) |};
     net := net m |}.

Definition set_suppress_tokens (v : list Z) (m : Model) : Model :=
  {| config := {| forced_decoder_ids := forced_decoder_ids (config m);
                  suppress_tokens := v;
                  use_cache := use_cache (config m) |};
     net := net m |}.

Definition set_use_cache (v : bool) (m : Model) : Model :=
  {| config := {| forced_decoder_ids := forced_decoder_ids (config m);
                  suppress_tokens := suppress_tokens (config m);
                  use_cache := v |};
     net := net m |}.

(** Calls that leave the script, in the order they are made. *)
Inductive call :=
| Call_print_arguments (a : Args.t)
| Call_print (s : string)
| Call_FeatureExtractor_from_pretrained (name : string)
| Call_Tokenizer_from_pretrained (name task : string)
| Call_Processor_from_pretrained (name task : string)
| Call_load_dataset (fmt train test : string)
| Call_cast_column (column : string) (rate : Z)
| Call_with_transform
| Call_DataCollator
| Call_Model_from_pretrained (name : string) (load_in_8bit : bool) (device_map : string)
| Call_prepare_model_for_int8_training (m : Model) (output_embedding_layer_name : string)
| Call_get_peft_model (m : Model) (cfg : LoraConfig.t)
| Call_print_trainable_parameters (m : Model)
| Call_Seq2SeqTrainer (ta : TrainingArguments.t) (m : Model)
| Call_train (resume : option string)
| Call_trainer_checkpoint (dir : string) (step : Z)
| Call_save_pretrained (m : Model) (dir : string)
| Call_os_remove (path : string)
| Call_decode_example (rate : option Z) (path : string)
| Call_feature_extractor (a : waveform) (rate : Z)
| Call_tokenizer (s : string).

(** ** The world: Python heap of dictionaries and file system *)

Record world := World {
  heap : gmap nat (gmap string pyval);
  files : gmap string node }.

Definition set_heap (h : gmap nat (gmap string pyval)) (w : world) : world :=
  World h (files w).
Definition set_files (f : gmap string node) (w : world) : world :=
  World (heap w) f.

(** State, exception and trace monad: a computation returns or raises,
    leaves a world behind either way, and emits the calls it made. *)
Definition M (A : Type) : Type := world -> (exn + A) * world * list call.

Definition ret {A} (a : A) : M A := fun w => (inr a, w, []).
Definition raise {A} (e : exn) : M A := fun w => (inl e, w, []).
Definition bind {A B} (c : M A) (k : A -> M B) : M B :=
  fun w => match c w with
           | (inr a, w1, t1) => let '(res, w2, t2) := k a w1 in (res, w2, t1 ++ t2)
           | (inl e, w1, t1) => (inl e, w1, t1)
           end.

Notation "x <- c1 ;; c2" := (bind c1 (fun x => c2))
  (at level 100, c1 at next level, right associativity).
Notation "c1 ;;; c2" := (bind c1 (fun _ => c2))
  (at level 100, right associativity).

Definition lift {A} (res : exn + A) : M A :=
  match res with inr a => ret a | inl e => raise e end.

Definition log (c : call) : M unit := fun w => (inr tt, w, [c]).

(** A call to a collaborator: it is recorded, then it returns or raises. *)
Definition invoke {A} (c : call) (res : exn + A) : M A := log c ;;; lift res.

(** [[f(x) for x in l]]: left to right, the first exception ends it. *)
Fixpoint for_each {A B} (f : A -> M B) (l : list A) : M (list B) :=
  match l with
  | [] => ret []
  | x :: l' => y <- f x ;; ys <- for_each f l' ;; ret (y :: ys)
  end.

(** ** The collaborators

    What the script imports from [transformers], [peft] and [datasets].
    Each operation returns or raises; the ones that write files also give
    the file system they leave behind, whether they raise or not. *)

Record checkpoint_event := {
  ev_step : Z;
  ev_model : Model;
  ev_control : TrainerControl }.

Record Library := {
  WhisperFeatureExtractor_from_pretrained :
    string -> exn + (waveform -> Z -> exn + list features);
  WhisperTokenizer_from_pretrained :
    string -> string -> exn + (string -> exn + list Z);
  WhisperProcessor_from_pretrained : string -> string -> exn + unit;
  load_dataset : string -> string -> string -> exn + (list raw_record * list raw_record);
  (** [Audio(sampling_rate=r).decode_example] on the file of a row *)
  decode_example : option Z -> string -> exn + audio;
  WhisperForConditionalGeneration_from_pretrained : string -> bool -> string -> exn + Model;
  prepare_model_for_int8_training : Model -> string -> exn + Model;
  get_peft_model : Model -> LoraConfig.t -> exn + Model;
  (** [model.save_pretrained(dir)] *)
  save_pretrained : Model -> string -> gmap string node -> (exn + unit) * gmap string node;
  (** the rank the launcher gives this process *)
  process_local_rank : Z;
  Seq2SeqTrainer : TrainingArguments.t -> Model -> exn + unit;
  (** the checkpoint events [trainer.train] emits, in order *)
  checkpoint_events : TrainingArguments.t -> Model -> option string -> list checkpoint_event;
  (** what the generic trainer itself writes at a checkpoint, before the callbacks *)
  trainer_save_checkpoint :
    string -> Z -> Model -> gmap string node -> (exn + unit) * gmap string node;
  (** how [trainer.train] ends: the trained model, or the failure *)
  train_result : TrainingArguments.t -> Model -> option string -> exn + Model }.

Variable L : Library.

(** ** Dictionaries on the heap *)

Definition new_dict : M nat := fun w =>
  let l := fresh (dom (heap w)) in
  (inr l, set_heap (<[l := ∅]> (heap w)) w, []).

Definition getitem (d : nat) (k : string) : M pyval := fun w =>
  match heap w !! d with
  | Some m => match m !! k with
              | Some v => (inr v, w, [])
              | None => (inl (KeyError k), w, [])
              end
  | None => (inl TypeError, w, [])
  end.

Definition setitem (d : nat) (k : string) (v : pyval) : M unit := fun w =>
  match heap w !! d with
  | Some m => (inr tt, set_heap (<[d := <[k := v]> m]> (heap w)) w, [])
  | None => (inl TypeError, w, [])
  end.

(** ** Files *)

Definition os_path_exists (p : string) : M bool := fun w =>
  (inr (bool_decide (is_Some (files w !! p))), w, []).

Definition os_remove (p : string) : M unit := fun w =>
  match files w !! p with
  | Some (File _) => (inr tt, set_files (delete p (files w)) w, [Call_os_remove p])
  | Some Dir => (inl (IsADirectoryError p), w, [Call_os_remove p])
  | None => (inl (FileNotFoundError p), w, [Call_os_remove p])
  end.

Definition model_save_pretrained (m : Model) (dir : string) : M unit := fun w =>
  let '(res, fs) := save_pretrained L m dir (files w) in
  (res, set_files fs w, [Call_save_pretrained m dir]).

(** ** [prepare_dataset], lines 46-53 *)

Definition index0 {A} (l : list A) : M A :=
  match l with
  | x :: _ => ret x
  | [] => raise IndexError
  end.

Definition as_audio (v : pyval) : M (list audio) :=
  match v with VAudio l => ret l | _ => raise TypeError end.

Definition as_sentence (v : pyval) : M (list string) :=
  match v with VSentence l => ret l | _ => raise TypeError end.

Definition prepare_dataset
    (feature_extractor : waveform -> Z -> exn + list features)
    (tokenizer : string -> exn + list Z) (batch : nat) : M nat :=
  new_batch <- new_dict ;;
  audios <- (v <- getitem batch "audio" ;; as_audio v) ;;
  input_features <-
    for_each (fun a =>
                out <- invoke (Call_feature_extractor (array a) (sampling_rate a))
                         (feature_extractor (array a) (sampling_rate a)) ;;
                index0 out) audios ;;
  setitem new_batch "input_features" (VFeatures input_features) ;;;
  sentences <- (v <- getitem batch "sentence" ;; as_sentence v) ;;
  labels <- for_each (fun s => invoke (Call_tokenizer s) (tokenizer s)) sentences ;;
  setitem new_batch "labels" (VLabels labels) ;;;
  ret new_batch.

(** ** [SavePeftModelCallback.on_save], lines 97-110 *)

(** Lines 107-109: drop the full snapshot the generic trainer left. *)
Definition remove_unneeded_model (checkpoint_folder : string) : M unit :=
  let pytorch_model_path := os_path_join checkpoint_folder "pytorch_model.bin" in
  present <- os_path_exists pytorch_model_path ;;
  if present then os_remove pytorch_model_path else ret tt.

Definition kwargs_getitem (kwargs : gmap string Model) (k : string) : M Model :=
  match kwargs !! k with
  | Some m => ret m
  | None => raise (KeyError k)
  end.

Definition on_save (args : TrainingArguments.t) (state : TrainerState)
    (control : TrainerControl) (kwargs : gmap string Model) : M TrainerControl :=
  let checkpoint_folder :=
    os_path_join (TrainingArguments.output_dir args)
      (PREFIX_CHECKPOINT_DIR +:+ "-" +:+ pretty (global_step state)) in
  let peft_model_path := os_path_join checkpoint_folder "adapter_model" in
  model <- kwargs_getitem kwargs "model" ;;
  model_save_pretrained model peft_model_path ;;;
  remove_unneeded_model checkpoint_folder ;;;
  ret control.

(** ** The dataset as the script configures it, lines 57-59

    [cast_column] and [with_transform] return a new dataset that differs in
    one setting; rows are decoded and transformed when they are read. *)

Record Dataset := {
  rows : list raw_record;
  audio_feature : option Z;
  format_transform : option (nat -> M nat) }.

Record DatasetDict := { train : Dataset; test : Dataset }.

Definition cast_column_audio (rate : Z) (d : Dataset) : Dataset :=
  {| rows := rows d; audio_feature := Some rate;
     format_transform := format_transform d |}.

Definition with_transform (f : nat -> M nat) (d : Dataset) : Dataset :=
  {| rows := rows d; audio_feature := audio_feature d;
     format_transform := Some f |}.

Definition DatasetDict_map (f : Dataset -> Dataset) (dd : DatasetDict) : DatasetDict :=
  {| train := f (train dd); test := f (test dd) |}.

(** Reading the rows [idx] of a dataset, as [datasets] does it: the rows
    are looked up, the audio column is decoded by its feature, the batch
    dictionary is built, and the format transform, if any, is applied. *)
Definition Dataset_getitem (ds : Dataset) (idx : list nat) : M nat :=
  rs <- for_each (fun i => match rows ds !! i with
                           | Some row => ret row
                           | None => raise IndexError
                           end) idx ;;
  audios <- for_each (fun row =>
                        invoke (Call_decode_example (audio_feature ds) (audio_path row))
                          (decode_example L (audio_feature ds) (audio_path row))) rs ;;
  batch <- new_dict ;;
  setitem batch "audio" (VAudio audios) ;;;
  setitem batch "sentence" (VSentence (map sentence rs)) ;;;
  match format_transform ds with
  | Some f => f batch
  | None => ret batch
  end.

(** ** The script, top to bottom *)

Definition py_assert (b : bool) (msg : string) : M unit :=
  if b then ret tt else raise (AssertionError msg).

Definition assertion_message (base_model : string) : string :=
  "模型文件" +:+ base_model +:+ "不存在，请检查是否为huggingface存在模型".

(** Lines 57-59. *)
Definition load_data (args : Args.t) (transform : nat -> M nat) : M DatasetDict :=
  splits <- invoke (Call_load_dataset "json" (Args.train_data args) (Args.test_data args))
              (load_dataset L "json" (Args.train_data args) (Args.test_data args)) ;;
  let audio_data :=
    {| train := {| rows := fst splits; audio_feature := None; format_transform := None |};
       test := {| rows := snd splits; audio_feature := None; format_transform := None |} |} in
  log (Call_cast_column "audio" 16000) ;;;
  let audio_data := DatasetDict_map (cast_column_audio 16000) audio_data in
  log Call_with_transform ;;;
  let audio_data := DatasetDict_map (with_transform transform) audio_data in
  ret audio_data.

Definition lora_config : LoraConfig.t :=
  LoraConfig.Build 32 64 ["q_proj"; "v_proj"] (5 # 100) "none".

(** Lines 64-71. *)
Definition build_model (args : Args.t) : M Model :=
  model <- invoke (Call_Model_from_pretrained (Args.base_model args) true "auto")
             (WhisperForConditionalGeneration_from_pretrained L
                (Args.base_model args) true "auto") ;;
  let model := set_forced_decoder_ids None model in
  let model := set_suppress_tokens [] model in
  model <- invoke (Call_prepare_model_for_int8_training model "proj_out")
             (prepare_model_for_int8_training L model "proj_out") ;;
  let config := lora_config in
  model <- invoke (Call_get_peft_model model config) (get_peft_model L model config) ;;
  ret model.

(** Lines 78-93. *)
Definition make_training_args (args : Args.t) : TrainingArguments.t :=
  TrainingArguments.Build "output"
    (Args.per_device_train_batch_size args)
    (Args.gradient_accumulation_steps args)
    (Args.learning_rate args)
    (Args.warmup_steps args)
    (Args.num_train_epochs args)
    "epoch" "epoch" true ["tensorboard"]
    (Args.num_workers args)
    (Args.per_device_eval_batch_size args)
    (Args.generation_max_length args)
    (Args.logging_steps args)
    false ["labels"]
    (process_local_rank L).

(** The generic trainer at a checkpoint: it writes its own checkpoint, then
    calls the callback with the model under the keyword [model]. *)
Definition trainer_checkpoint (ta : TrainingArguments.t) (ev : checkpoint_event) : M unit :=
  (fun w =>
     let '(res, fs) := trainer_save_checkpoint L (TrainingArguments.output_dir ta)
                         (ev_step ev) (ev_model ev) (files w) in
     (res, set_files fs w,
      [Call_trainer_checkpoint (TrainingArguments.output_dir ta) (ev_step ev)])) ;;;
  on_save ta {| global_step := ev_step ev |} (ev_control ev)
    {[ "model" := ev_model ev ]} ;;;
  ret tt.

Fixpoint training_loop (ta : TrainingArguments.t) (events : list checkpoint_event) : M unit :=
  match events with
  | [] => ret tt
  | ev :: rest => trainer_checkpoint ta ev ;;; training_loop ta rest
  end.

(** [trainer.train(resume_from_checkpoint=...)], line 124. *)
Definition trainer_train (ta : TrainingArguments.t) (model : Model)
    (resume : option string) : M Model :=
  log (Call_train resume) ;;;
  training_loop ta (checkpoint_events L ta model resume) ;;;
  lift (train_result L ta model resume).

Definition rule : string := String.concat "" (repeat "=" 70).

Definition main (args : Args.t) : M unit :=
  log (Call_print_arguments args) ;;;
  py_assert (String.eqb "openai" (os_path_dirname (Args.base_model args)))
    (assertion_message (Args.base_model args)) ;;;
  feature_extractor <-
    invoke (Call_FeatureExtractor_from_pretrained (Args.base_model args))
      (WhisperFeatureExtractor_from_pretrained L (Args.base_model args)) ;;
  tokenizer <-
    invoke (Call_Tokenizer_from_pretrained (Args.base_model args) (Args.task args))
      (WhisperTokenizer_from_pretrained L (Args.base_model args) (Args.task args)) ;;
  processor <-
    invoke (Call_Processor_from_pretrained (Args.base_model args) (Args.task args))
      (WhisperProcessor_from_pretrained L (Args.base_model args) (Args.task args)) ;;
  audio_data <- load_data args (prepare_dataset feature_extractor tokenizer) ;;
  log Call_DataCollator ;;;
  model <- build_model args ;;
  log (Call_print rule) ;;;
  log (Call_print_trainable_parameters model) ;;;
  log (Call_print rule) ;;;
  let training_args := make_training_args args in
  invoke (Call_Seq2SeqTrainer training_args model)
    (Seq2SeqTrainer L training_args model) ;;;
  let model := set_use_cache false model in
  model <- trainer_train training_args model (Args.resume_from_checkpoint args) ;;
  if TrainingArguments.local_rank training_args =? 0
  then model_save_pretrained model (TrainingArguments.output_dir training_args)
  else ret tt.

End Finetune.

Arguments set_forced_decoder_ids {network}.
Arguments set_suppress_tokens {network}.
Arguments set_use_cache {network}.
Arguments set_heap {waveform features}.
Arguments set_files {waveform features}.
Arguments ret {waveform features network A}.
Arguments raise {waveform features network A}.
Arguments bind {waveform features network A B}.
Arguments lift {waveform features network A}.
Arguments log {waveform features network}.
Arguments invoke {waveform features network A}.
Arguments for_each {waveform features network A B}.
Arguments new_dict {waveform features network}.
Arguments getitem {waveform features network}.
Arguments setitem {waveform features network}.
Arguments os_path_exists {waveform features network}.
Arguments os_remove {waveform features network}.
Arguments model_save_pretrained {waveform features network}.
Arguments index0 {waveform features network A}.
Arguments as_audio {waveform features network}.
Arguments as_sentence {waveform features network}.
Arguments prepare_dataset {waveform features network}.
Arguments remove_unneeded_model {waveform features network}.
Arguments kwargs_getitem {waveform features network}.
Arguments on_save {waveform features network}.
Arguments cast_column_audio {waveform features network}.
Arguments with_transform {waveform features network}.
Arguments DatasetDict_map {waveform features network}.
Arguments Dataset_getitem {waveform features network}.
Arguments py_assert {waveform features network}.
Arguments load_data {waveform features network}.
Arguments build_model {waveform features network}.
Arguments make_training_args {waveform features network}.
Arguments trainer_checkpoint {waveform features network}.
Arguments training_loop {waveform features network}.
Arguments trainer_train {waveform features network}.
Arguments main {waveform features network}.
Arguments VAudio {waveform features}.
Arguments VSentence {waveform features}.
Arguments VFeatures {waveform features}.
Arguments VLabels {waveform features}.
Arguments Call_print_arguments {waveform network}.
Arguments Call_print {waveform network}.
Arguments Call_FeatureExtractor_from_pretrained {waveform network}.
Arguments Call_Tokenizer_from_pretrained {waveform network}.
Arguments Call_Processor_from_pretrained {waveform network}.
Arguments Call_load_dataset {waveform network}.
Arguments Call_cast_column {waveform network}.
Arguments Call_with_transform {waveform network}.
Arguments Call_DataCollator {waveform network}.
Arguments Call_Model_from_pretrained {waveform network}.
Arguments Call_prepare_model_for_int8_training {waveform network}.
Arguments Call_get_peft_model {waveform network}.
Arguments Call_print_trainable_parameters {waveform network}.
Arguments Call_Seq2SeqTrainer {waveform network}.
Arguments Call_train {waveform network}.
Arguments Call_trainer_checkpoint {waveform network}.
Arguments Call_save_pretrained {waveform network}.
Arguments Call_os_remove {waveform network}.
Arguments Call_decode_example {waveform network}.
Arguments Call_feature_extractor {waveform network}.
Arguments Call_tokenizer {waveform network}.
Arguments Build_audio {waveform}.
Arguments array {waveform}.
Arguments sampling_rate {waveform}.
Arguments Build_Model {network}.
Arguments config {network}.
Arguments net {network}.
Arguments World {waveform features}.
Arguments heap {waveform features}.
Arguments files {waveform features}.
Arguments Build_checkpoint_event {network}.
Arguments ev_step {network}.
Arguments ev_model {network}.
Arguments ev_control {network}.
Arguments Build_Library {waveform features network}.
Arguments WhisperFeatureExtractor_from_pretrained {waveform features network}.
Arguments WhisperTokenizer_from_pretrained {waveform features network}.
Arguments WhisperProcessor_from_pretrained {waveform features network}.
Arguments load_dataset {waveform features network}.
Arguments decode_example {waveform features network}.
Arguments WhisperForConditionalGeneration_from_pretrained {waveform features network}.
Arguments prepare_model_for_int8_training {waveform features network}.
Arguments get_peft_model {waveform features network}.
Arguments save_pretrained {waveform features network}.
Arguments process_local_rank {waveform features network}.
Arguments Seq2SeqTrainer {waveform features network}.
Arguments checkpoint_events {waveform features network}.
Arguments trainer_save_checkpoint {waveform features network}.
Arguments train_result {waveform features network}.
Arguments Build_Dataset {waveform features network}.
Arguments rows {waveform features network}.
Arguments audio_feature {waveform features network}.
Arguments format_transform {waveform features network}.
Arguments Build_DatasetDict {waveform features network}.
Arguments train {waveform features network}.
Arguments test {waveform features network}.

(** ** A concrete set of collaborators, to run the script on *)

Module Sample.

Definition control0 : TrainerControl :=
  {| should_training_stop := false; should_epoch_stop := false;
     should_save := true; should_evaluate := false; should_log := false |}.

Definition model0 : Model nat :=
  {| config := {| forced_decoder_ids := Some [(1, 50259); (2, 50359)];
                  suppress_tokens := [1; 2; 7];
                  use_cache := true |};
     net := 0%nat |}.

Definition checkpoint_dir (dir : string) (step : Z) : string :=
  os_path_join dir ("checkpoint-" +:+ pretty step).

(** Training bumps the weights; the trainer checkpoints at steps 500 and
    1000 and leaves [pytorch_model.bin] and [optimizer.pt] each time. *)
Definition library (rank : Z) : Library (list Z) (list Z) nat :=
  {| WhisperFeatureExtractor_from_pretrained := fun _ => inr (fun a _ => inr [a]);
     WhisperTokenizer_from_pretrained := fun _ _ =>
       inr (fun s => inr [50258; Z.of_nat (String.length s); 50257]);
     WhisperProcessor_from_pretrained := fun _ _ => inr tt;
     load_dataset := fun _ _ _ =>
       inr ([ {| audio_path := "a.wav"; sentence := "hello" |};
              {| audio_path := "b.wav"; sentence := "world" |} ],
            [ {| audio_path := "c.wav"; sentence := "test" |} ]);
     decode_example := fun rate path =>
       inr {| array := [Z.of_nat (String.length path); 3];
              sampling_rate := default 44100 rate |};
     WhisperForConditionalGeneration_from_pretrained := fun _ _ _ => inr model0;
     prepare_model_for_int8_training := fun m _ => inr m;
     get_peft_model := fun m _ => inr m;
     save_pretrained := fun m dir fs =>
       (inr tt, <[os_path_join dir "adapter_model.bin" := File "lora"]> (<[dir := Dir]> fs));
     process_local_rank := rank;
     Seq2SeqTrainer := fun _ _ => inr tt;
     checkpoint_events := fun _ m _ =>
       [ {| ev_step := 500; ev_model := m; ev_control := control0 |};
         {| ev_step := 1000; ev_model := m; ev_control := control0 |} ];
     trainer_save_checkpoint := fun dir step _ fs =>
       (inr tt,
        <[os_path_join (checkpoint_dir dir step) "pytorch_model.bin" := File "full"]>
          (<[os_path_join (checkpoint_dir dir step) "optimizer.pt" := File "adam"]> fs));
     train_result := fun _ m _ => inr {| config := config m; net := S (net m) |} |}.

Definition world0 : world (list Z) (list Z) := World ∅ ∅.

(** The world right after the generic trainer checkpointed at step 500. *)
Definition world500 : world (list Z) (list Z) :=
  World ∅ {[ "output/checkpoint-500/pytorch_model.bin" := File "full" ]}.

(** A heap with one batch of two records at address 0. *)
Definition audios0 : list (audio (list Z)) :=
  [ {| array := [1; 2; 3]; sampling_rate := 16000 |};
    {| array := [4; 5]; sampling_rate := 16000 |} ].

Definition batch0 : gmap string (pyval (list Z) (list Z)) :=
  <["sentence" := VSentence ["hello"; "world"]]> (<["audio" := VAudio audios0]> ∅).

Definition world_batch : world (list Z) (list Z) :=
  World {[ 0%nat := batch0 ]} ∅.

Definition feature_extractor : list Z -> Z -> exn + list (list Z) :=
  fun a _ => inr [a].

Definition tokenizer : string -> exn + list Z :=
  fun s => inr [50258; Z.of_nat (String.length s); 50257].

Definition training_args : TrainingArguments.t :=
  make_training_args (library 0) Args.default.


(** A feature extractor that fails on an empty waveform, and a tokenizer
    that fails on an empty transcript. *)
Definition strict_extractor : list Z -> Z -> exn + list (list Z) :=
  fun a _ => match a with [] => inl (LibraryError "empty audio") | _ => inr [a] end.

Definition strict_tokenizer : string -> exn + list Z :=
  fun s => match s with
           | "" => inl (LibraryError "empty text")
           | _ => inr [50258; Z.of_nat (String.length s); 50257]
           end.

Definition audios_bad : list (audio (list Z)) :=
  [ {| array := [1; 2; 3]; sampling_rate := 16000 |} ]
  ++ {| array := []; sampling_rate := 16000 |}
  :: [ {| array := [4; 5]; sampling_rate := 16000 |} ].

Definition batch_bad_audio : gmap string (pyval (list Z) (list Z)) :=
  <["audio" := VAudio audios_bad]> ∅.

Definition batch_bad_text : gmap string (pyval (list Z) (list Z)) :=
  <["sentence" := VSentence (["hello"] ++ "" :: ["world"])]>
    (<["audio" := VAudio audios0]> ∅).

Definition batch_no_text : gmap string (pyval (list Z) (list Z)) :=
  <["audio" := VAudio audios0]> ∅.

(** The checkpoint folder of step 500 as the generic trainer leaves it. *)
Definition world_full : world (list Z) (list Z) :=
  World ∅ {[ "output/checkpoint-500/optimizer.pt" := File "adam";
             "output/checkpoint-500/pytorch_model.bin" := File "full" ]}.

Definition world_of (d : gmap string (pyval (list Z) (list Z))) : world (list Z) (list Z) :=
  World {[ 0%nat := d ]} ∅.

Definition events0 : list (checkpoint_event nat) :=
  [ {| ev_step := 500; ev_model := model0; ev_control := control0 |};
    {| ev_step := 1000; ev_model := model0; ev_control := control0 |} ].

(** A base model named without its namespace. *)
Definition args_bare : Args.t :=
  Args.Build "dataset/train.json" "dataset/test.json" "whisper-large-v2"
    "models/whisper-large-v2-lora" 100 50 8 (1 # 1000) 3 "transcribe" None
    8 8 1 128.

End Sample.

(** ** Vocabulary of the statements *)

(** The calls that touch the file system from the script's own code. *)
Definition is_fs_call {waveform network} (c : call waveform network) : Prop :=
  match c with
  | Call_save_pretrained _ _ | Call_os_remove _ => True
  | _ => False
  end.

(** A triple for the monad: from a world satisfying [Pre], whatever the
    outcome, the worlds before and after are related by [I], every call
    emitted satisfies [P], and a normal return satisfies [Q]. *)
Definition hoare {waveform features network A}
    (I : relation (world waveform features))
    (P : call waveform network -> Prop)
    (Pre : world waveform features -> Prop)
    (c : M waveform features network A)
    (Q : A -> world waveform features -> Prop) : Prop :=
  forall w res w' t,
    Pre w -> c w = (res, w', t) ->
    I w w' /\ Forall P t /\ forall a, res = inr a -> Q a w'.

(** A computation that leaves the world as it is and calls nothing. *)
Definition silent {waveform features network A}
    (c : M waveform features network A) : Prop :=
  forall w, exists res, c w = (res, w, []).

(** The frame of an allocation: files are as before and so is every heap
    object other than [l]. *)
Definition only_touches {waveform features} (l : nat) : relation (world waveform features) :=
  fun w w' => files w' = files w /\ forall k, k <> l -> heap w' !! k = heap w !! k.

(** The calls [prepare_dataset] may make. *)
Definition is_preprocessing_call {waveform network} (c : call waveform network) : Prop :=
  match c with
  | Call_feature_extractor _ _ | Call_tokenizer _ => True
  | _ => False
  end.

(** The three paths of a checkpoint at global step [N] under [output_dir]. *)
Definition checkpoint_folder (output_dir : string) (N : Z) : string :=
  os_path_join output_dir ("checkpoint-" +:+ pretty N).
Definition adapter_path (output_dir : string) (N : Z) : string :=
  os_path_join (checkpoint_folder output_dir N) "adapter_model".
Definition snapshot_path (output_dir : string) (N : Z) : string :=
  os_path_join (checkpoint_folder output_dir N) "pytorch_model.bin".

(** No constraint between the worlds before and after. *)
Definition any_change {waveform features} : relation (world waveform features) :=
  fun _ _ => True.

(** The calls of the training loop at a checkpoint under [dir]: the generic
    trainer's own checkpoint, the adapter save and the snapshot removal. *)
Definition loop_call {waveform network} (dir : string) (c : call waveform network) : Prop :=
  exists N,
    c = Call_trainer_checkpoint dir N \/
    (exists model, c = Call_save_pretrained model (adapter_path dir N)) \/
    c = Call_os_remove (snapshot_path dir N).

(** Whatever a call writes or removes lies at or below [output]. *)
Definition under_output {waveform network} (c : call waveform network) : Prop :=
  match c with
  | Call_save_pretrained _ d | Call_os_remove d =>
      d = "output" \/ String.prefix "output/" d = true
  | Call_trainer_checkpoint d _ => d = "output"
  | Call_Seq2SeqTrainer ta _ => TrainingArguments.output_dir ta = "output"
  | _ => True
  end.

(** How many times a trace saves a model to exactly the directory [dir]. *)
Definition is_save_to {waveform network} (dir : string) (c : call waveform network) : bool :=
  match c with
  | Call_save_pretrained _ d => String.eqb d dir
  | _ => false
  end.

Definition count_saves_to {waveform network} (dir : string)
    (t : list (call waveform network)) : nat :=
  length (List.filter (is_save_to dir) t).

(** A trace in which a save to the top-level directory can only be the
    last call, and then only after [trainer.train] was called. *)
Definition saves_only_last {waveform network} (resume : option string)
    (t : list (call waveform network)) : Prop :=
  exists t0 t_final,
    t = t0 ++ t_final /\
    Forall (fun c => is_save_to "output" c = false) t0 /\
    (t_final = [] \/
     exists model, t_final = [Call_save_pretrained model "output"] /\
                   In (Call_train resume) t0).

(** Every decoding and every feature extraction in [c] is at [rate] Hz. *)
Definition at_rate {waveform network} (rate : Z) (c : call waveform network) : Prop :=
  match c with
  | Call_feature_extractor _ r => r = rate
  | Call_decode_example r _ => r = Some rate
  | _ => True
  end.

(** A list comprehension over a function that may raise: the results, or
    the first exception; and the elements it got to. *)
Fixpoint traverse {A B} (g : A -> exn + B) (l : list A) : exn + list B :=
  match l with
  | [] => inr []
  | x :: l' =>
      match g x with
      | inl e => inl e
      | inr y => match traverse g l' with
                 | inl e => inl e
                 | inr ys => inr (y :: ys)
                 end
      end
  end.

Fixpoint attempted {A B} (g : A -> exn + B) (l : list A) : list A :=
  match l with
  | [] => []
  | x :: l' => x :: match g x with
                    | inl _ => []
                    | inr _ => attempted g l'
                    end
  end.

(** [feature_extractor(a["array"], sampling_rate=a["sampling_rate"]).input_features[0]] *)
Definition extract {waveform features}
    (feature_extractor : waveform -> Z -> exn + list features)
    (a : audio waveform) : exn + features :=
  match feature_extractor (array a) (sampling_rate a) with
  | inl e => inl e
  | inr [] => inl IndexError
  | inr (x :: _) => inr x
  end.

(** * Properties *)

(** ** [os.path] on the paths the script meets *)

Example dirname_default : os_path_dirname "openai/whisper-large-v2" = "openai".
Proof. reflexivity. Qed.
Example dirname_bare : os_path_dirname "whisper-large-v2" = "".
Proof. reflexivity. Qed.
Example dirname_nested : os_path_dirname "openai/whisper/large" = "openai/whisper".
Proof. reflexivity. Qed.
Example dirname_root : os_path_dirname "/openai" = "/".
Proof. reflexivity. Qed.
Example dirname_double : os_path_dirname "openai//tiny" = "openai".
Proof. reflexivity. Qed.
Example join_plain : os_path_join "output" "checkpoint-500" = "output/checkpoint-500".
Proof. reflexivity. Qed.
Example join_slash : os_path_join "output/" "checkpoint-500" = "output/checkpoint-500".
Proof. reflexivity. Qed.
Example join_abs : os_path_join "output" "/tmp" = "/tmp".
Proof. reflexivity. Qed.
Example pretty_500 : pretty 500%Z = "500".
Proof. vm_compute. reflexivity. Qed.


Notation "x <- c1 ;; c2" := (bind c1 (fun x => c2))
  (at level 100, c1 at next level, right associativity).
Notation "c1 ;;; c2" := (bind c1 (fun _ => c2))
  (at level 100, right associativity).

Section Monad_lemmas.
Context {waveform features network : Type}.
Local Abbreviation M := (M waveform features network).
Implicit Types (w : world waveform features) (t : list (call waveform network)).

Lemma bind_inr {A B} (c : M A) (k : A -> M B) w a w1 t1 res w2 t2 :
  c w = (inr a, w1, t1) -> k a w1 = (res, w2, t2) ->
  bind c k w = (res, w2, t1 ++ t2).
Proof. intros Hc Hk. unfold bind. rewrite Hc, Hk. reflexivity. Qed.

Lemma bind_inl {A B} (c : M A) (k : A -> M B) w e w1 t1 :
  c w = (inl e, w1, t1) -> bind c k w = (inl e, w1, t1).
Proof. intros Hc. unfold bind. rewrite Hc. reflexivity. Qed.

Lemma bind_inv {A B} (c : M A) (k : A -> M B) w res w' t :
  bind c k w = (res, w', t) ->
  (exists e, c w = (inl e, w', t) /\ res = inl e) \/
  (exists a w1 t1 t2, c w = (inr a, w1, t1) /\ k a w1 = (res, w', t2) /\ t = t1 ++ t2).
Proof.
  unfold bind. destruct (c w) as [[[e|a] w1] t1].
  - intros [= <- <- <-]. left. eauto.
  - destruct (k a w1) as [[res2 w2] t2] eqn:Hk.
    intros [= <- <- <-]. right. exists a, w1, t1, t2. auto.
Qed.

Lemma bind_inr_inv {A B} (c : M A) (k : A -> M B) w b w' t :
  bind c k w = (inr b, w', t) ->
  exists a w1 t1 t2, c w = (inr a, w1, t1) /\ k a w1 = (inr b, w', t2) /\ t = t1 ++ t2.
Proof.
  intros H. apply bind_inv in H as [(e & _ & [=]) | H]. exact H.
Qed.

Lemma invoke_eq {A} (c : call waveform network) (res : exn + A) w :
  invoke (features := features) c res w = (res, w, [c]).
Proof. unfold invoke, bind, log, lift. destruct res; reflexivity. Qed.

(** *** Rules of the triple *)

Section Rules.
Variable I : relation (world waveform features).
Context `{!PreOrder I}.
Variable P : call waveform network -> Prop.
Implicit Types (Pre : world waveform features -> Prop).

Lemma hoare_ret {A} Pre (a : A) (Q : A -> world waveform features -> Prop) :
  (forall w, Pre w -> Q a w) -> hoare I P Pre (ret a) Q.
Proof.
  intros HQ w res w' t Hpre [= <- <- <-].
  split; [reflexivity|]. split; [constructor|]. intros ? [= <-]. auto.
Qed.

Lemma hoare_raise {A} Pre e (Q : A -> world waveform features -> Prop) :
  hoare I P Pre (raise e) Q.
Proof.
  intros w res w' t Hpre [= <- <- <-].
  split; [reflexivity|]. split; [constructor|]. intros ? [=].
Qed.

Lemma hoare_lift {A} Pre (r : exn + A) (Q : A -> world waveform features -> Prop) :
  (forall a w, r = inr a -> Pre w -> Q a w) -> hoare I P Pre (lift r) Q.
Proof.
  intros HQ. destruct r as [e|a]; simpl.
  - apply hoare_raise.
  - apply hoare_ret. intros w Hw. apply HQ; auto.
Qed.

Lemma hoare_log Pre c (Q : unit -> world waveform features -> Prop) :
  P c -> (forall w, Pre w -> Q tt w) -> hoare I P Pre (log c) Q.
Proof.
  intros Hc HQ w res w' t Hpre [= <- <- <-].
  split; [reflexivity|]. split; [repeat constructor; exact Hc|].
  intros ? [= <-]. auto.
Qed.

Lemma hoare_invoke {A} Pre c (r : exn + A) (Q : A -> world waveform features -> Prop) :
  P c -> (forall a w, r = inr a -> Pre w -> Q a w) -> hoare I P Pre (invoke c r) Q.
Proof.
  intros Hc HQ w res w' t Hpre. rewrite invoke_eq. intros [= <- <- <-].
  split; [reflexivity|]. split; [repeat constructor; exact Hc|].
  intros a ->. auto.
Qed.

Lemma hoare_bind {A B} Pre (c : M A) (k : A -> M B) Qa Qb :
  hoare I P Pre c Qa -> (forall a, hoare I P (Qa a) (k a) Qb) ->
  hoare I P Pre (bind c k) Qb.
Proof.
  intros Hc Hk w res w' t Hpre H.
  apply bind_inv in H as [(e & H & ->) | (a & w1 & t1 & t2 & H1 & H2 & ->)].
  - destruct (Hc _ _ _ _ Hpre H) as (HI & HP & _).
    split; [exact HI|]. split; [exact HP|]. intros ? [=].
  - destruct (Hc _ _ _ _ Hpre H1) as (HI1 & HP1 & HQ1).
    destruct (Hk a _ _ _ _ (HQ1 a eq_refl) H2) as (HI2 & HP2 & HQ2).
    split; [etransitivity; eassumption|].
    split; [apply Forall_app; auto|]. exact HQ2.
Qed.

Lemma hoare_consequence {A} Pre Pre' (c : M A) (Q Q' : A -> world waveform features -> Prop) :
  (forall w, Pre' w -> Pre w) -> (forall a w, Q a w -> Q' a w) ->
  hoare I P Pre c Q -> hoare I P Pre' c Q'.
Proof.
  intros H1 H2 Hc w res w' t Hpre H.
  destruct (Hc _ _ _ _ (H1 _ Hpre) H) as (HI & HP & HQ).
  split; [exact HI|]. split; [exact HP|]. intros a Ha. apply H2, HQ, Ha.
Qed.

Lemma hoare_for_each {A B} (Inv : world waveform features -> Prop)
    (R : A -> B -> Prop) (f : A -> M B) (l : list A) :
  (forall x, In x l -> hoare I P Inv (f x) (fun y w => R x y /\ Inv w)) ->
  hoare I P Inv (for_each f l) (fun ys w => Forall2 R l ys /\ Inv w).
Proof.
  induction l as [|x l IH]; intros Hf; simpl.
  - apply hoare_ret. intros w Hw. split; [constructor|exact Hw].
  - eapply hoare_bind; [apply Hf; left; reflexivity|].
    intros y. simpl.
    eapply hoare_bind with (Qa := fun ys w => R x y /\ Forall2 R l ys /\ Inv w).
    + intros w res w' t [Hxy Hw] H.
      destruct (IH (fun x' Hx' => Hf x' (or_intror Hx')) _ _ _ _ Hw H) as (HI & HP & HQ).
      split; [exact HI|]. split; [exact HP|].
      intros ys Hys. destruct (HQ ys Hys). auto.
    + intros ys. apply hoare_ret. intros w (Hxy & Hys & Hw).
      split; [constructor; assumption|exact Hw].
Qed.

End Rules.

End Monad_lemmas.

(** ** The cleanup step and the callback *)

Section Callback.
Context {waveform features network : Type}.
Variable L : Library waveform features network.
Implicit Types (w : world waveform features) (t : list (call waveform network)).

Lemma remove_unneeded_absent folder w :
  files w !! os_path_join folder "pytorch_model.bin" = None ->
  remove_unneeded_model (network := network) folder w = (inr tt, w, []).
Proof.
  intros H. unfold remove_unneeded_model, bind, os_path_exists.
  rewrite H. rewrite bool_decide_eq_false_2; [reflexivity|].
  intros [x Hx]. discriminate.
Qed.

Lemma remove_unneeded_file folder w d :
  let p := os_path_join folder "pytorch_model.bin" in
  files w !! p = Some (File d) ->
  remove_unneeded_model (network := network) folder w
  = (inr tt, set_files (delete p (files w)) w, [Call_os_remove p]).
Proof.
  intros p H. unfold remove_unneeded_model, bind, os_path_exists. fold p.
  rewrite bool_decide_eq_true_2 by (rewrite H; eauto).
  unfold os_remove. rewrite H. reflexivity.
Qed.

Lemma remove_unneeded_dir folder w :
  let p := os_path_join folder "pytorch_model.bin" in
  files w !! p = Some Dir ->
  remove_unneeded_model (network := network) folder w
  = (inl (IsADirectoryError p), w, [Call_os_remove p]).
Proof.
  intros p H. unfold remove_unneeded_model, bind, os_path_exists. fold p.
  rewrite bool_decide_eq_true_2 by (rewrite H; eauto).
  unfold os_remove. rewrite H. reflexivity.
Qed.

(** Whatever the cleanup step finds, it leaves the heap alone, calls nothing
    but [os.remove] on the snapshot path, and when it returns the snapshot
    is gone and every other path is as before. *)
Lemma remove_unneeded_spec folder w res w' t :
  let p := os_path_join folder "pytorch_model.bin" in
  remove_unneeded_model (network := network) folder w = (res, w', t) ->
  heap w' = heap w /\
  (t = [] \/ t = [Call_os_remove p]) /\
  (res = inr tt -> files w' = delete p (files w)) /\
  (forall e, res = inl e -> files w' = files w /\ files w !! p = Some Dir).
Proof.
  intros p H. destruct (files w !! p) as [[d|]|] eqn:Hp.
  - rewrite (remove_unneeded_file folder w d Hp) in H.
    injection H as <- <- <-. split; [|split; [|split]]; auto.
    intros e [=].
  - rewrite (remove_unneeded_dir folder w Hp) in H.
    injection H as <- <- <-. split; [|split; [|split]]; auto.
    intros [=].
  - rewrite (remove_unneeded_absent folder w Hp) in H.
    injection H as <- <- <-. split; [|split; [|split]]; auto.
    + intros _. symmetry. apply delete_id. exact Hp.
    + intros e [=].
Qed.

(** [on_save], step by step. *)
Lemma on_save_unfold ta state control kwargs w :
  let N := global_step state in
  let dir := TrainingArguments.output_dir ta in
  on_save L ta state control kwargs w =
  match kwargs !! "model" with
  | None => (inl (KeyError "model"), w, [])
  | Some model =>
      match save_pretrained L model (adapter_path dir N) (files w) with
      | (inl e, fs1) =>
          (inl e, set_files fs1 w, [Call_save_pretrained model (adapter_path dir N)])
      | (inr _, fs1) =>
          match remove_unneeded_model (checkpoint_folder dir N) (set_files fs1 w) with
          | (inr _, w2, t2) =>
              (inr control, w2, Call_save_pretrained model (adapter_path dir N) :: t2)
          | (inl e, w2, t2) =>
              (inl e, w2, Call_save_pretrained model (adapter_path dir N) :: t2)
          end
      end
  end.
Proof.
  intros N dir. unfold on_save, kwargs_getitem, adapter_path, checkpoint_folder.
  change (PREFIX_CHECKPOINT_DIR +:+ "-" +:+ pretty (global_step state))
    with ("checkpoint-" +:+ pretty N).
  fold dir.
  destruct (kwargs !! "model") as [model|]; [|reflexivity].
  unfold bind at 1. unfold ret at 1. unfold bind at 1.
  unfold model_save_pretrained.
  destruct (save_pretrained L model _ (files w)) as [[e|[]] fs1]; [reflexivity|].
  unfold bind, ret.
  destruct (remove_unneeded_model _ (set_files fs1 w)) as [[[e|[]] w2] t2];
    simpl; rewrite ?app_nil_r; reflexivity.
Qed.

(** Every outcome of the callback: the heap is untouched, the calls are the
    adapter save followed by at most the removal of the snapshot, and a
    normal return hands back [control] with the snapshot gone. *)
Lemma on_save_spec ta state control kwargs w res w' t :
  let N := global_step state in
  let dir := TrainingArguments.output_dir ta in
  on_save L ta state control kwargs w = (res, w', t) ->
  heap w' = heap w /\
  Forall is_fs_call t /\
  (forall c, res = inr c ->
     c = control /\
     exists model fs1,
       kwargs !! "model" = Some model /\
       save_pretrained L model (adapter_path dir N) (files w) = (inr tt, fs1) /\
       files w' = delete (snapshot_path dir N) fs1 /\
       (t = [Call_save_pretrained model (adapter_path dir N)] \/
        t = [Call_save_pretrained model (adapter_path dir N);
             Call_os_remove (snapshot_path dir N)])).
Proof.
  intros N dir. rewrite on_save_unfold. fold N dir.
  destruct (kwargs !! "model") as [model|] eqn:Hm.
  2:{ intros [= <- <- <-]. split; [|split]; auto. intros c [=]. }
  destruct (save_pretrained L model (adapter_path dir N) (files w)) as [[e|[]] fs1] eqn:Hs.
  { intros [= <- <- <-]. split; [|split]; auto.
    - repeat constructor.
    - intros c [=]. }
  destruct (remove_unneeded_model (checkpoint_folder dir N) (set_files fs1 w))
    as [[r2 w2] t2] eqn:Hr.
  pose proof (remove_unneeded_spec _ _ _ _ _ Hr) as (Hh & Ht & Hok & _).
  fold (snapshot_path dir N) in Ht, Hok.
  assert (Hfs : Forall is_fs_call (Call_save_pretrained model (adapter_path dir N) :: t2)).
  { constructor; [exact I|]. destruct Ht as [-> | ->]; repeat constructor. }
  destruct r2 as [e|[]]; intros [= <- <- <-]; (split; [exact Hh|split; [exact Hfs|]]).
  - intros c [=].
  - intros c [= <-]. split; [reflexivity|].
    exists model, fs1. split; [reflexivity|]. split; [exact Hs|].
    split; [apply Hok; reflexivity|].
    destruct Ht as [-> | ->]; auto.
Qed.

(** The callback returns as soon as the model is there, the adapter save
    succeeds and no directory sits at the snapshot path. *)
Lemma on_save_returns ta state control kwargs w model fs1 :
  let N := global_step state in
  let dir := TrainingArguments.output_dir ta in
  kwargs !! "model" = Some model ->
  save_pretrained L model (adapter_path dir N) (files w) = (inr tt, fs1) ->
  fs1 !! snapshot_path dir N <> Some Dir ->
  exists w' t, on_save L ta state control kwargs w = (inr control, w', t).
Proof.
  intros N dir Hm Hs Hd. rewrite on_save_unfold. fold N dir. rewrite Hm, Hs.
  destruct (remove_unneeded_model (checkpoint_folder dir N) (set_files fs1 w))
    as [[[e|[]] w2] t2] eqn:Hr; [|eauto].
  exfalso. apply (remove_unneeded_spec _ _ _ _ _) in Hr as (_ & _ & _ & He).
  destruct (He e eq_refl) as [_ Hdir]. apply Hd. exact Hdir.
Qed.

(** C3. The cleanup step deletes only what exists: where
    [pytorch_model.bin] is absent from the checkpoint folder it returns
    without an error, leaves the world as it was and calls nothing, so
    running it again is again a no-op. *)
Theorem cleanup_absent_is_noop folder w :
  files w !! os_path_join folder "pytorch_model.bin" = None ->
  remove_unneeded_model (network := network) folder w = (inr tt, w, []) /\
  (remove_unneeded_model (network := network) folder ;;;
   remove_unneeded_model folder) w = (inr tt, w, []).
Proof.
  intros H. pose proof (remove_unneeded_absent folder w H) as Hone.
  split; [exact Hone|].
  rewrite (bind_inr _ _ _ _ _ _ _ _ _ Hone Hone). reflexivity.
Qed.

(** C2. At a checkpoint event at global step [N] the callback saves the
    model it is given into [<output_dir>/checkpoint-N/adapter_model], and
    once it has returned [<output_dir>/checkpoint-N/pytorch_model.bin] does
    not exist, whatever the file system held before; every other path is as
    the adapter save left it.  It returns whenever the save succeeds and the
    snapshot path is not a directory. *)
Theorem on_save_checkpoint_layout ta N control kwargs w :
  let dir := TrainingArguments.output_dir ta in
  let state := {| global_step := N |} in
  checkpoint_folder dir N = os_path_join dir ("checkpoint-" +:+ pretty N) /\
  adapter_path dir N = os_path_join (checkpoint_folder dir N) "adapter_model" /\
  snapshot_path dir N = os_path_join (checkpoint_folder dir N) "pytorch_model.bin" /\
  (forall c w' t,
     on_save L ta state control kwargs w = (inr c, w', t) ->
     exists model fs1,
       kwargs !! "model" = Some model /\
       hd_error t = Some (Call_save_pretrained model (adapter_path dir N)) /\
       save_pretrained L model (adapter_path dir N) (files w) = (inr tt, fs1) /\
       files w' !! snapshot_path dir N = None /\
       (forall p, p <> snapshot_path dir N -> files w' !! p = fs1 !! p)) /\
  (forall model fs1,
     kwargs !! "model" = Some model ->
     save_pretrained L model (adapter_path dir N) (files w) = (inr tt, fs1) ->
     fs1 !! snapshot_path dir N <> Some Dir ->
     exists w' t, on_save L ta state control kwargs w = (inr control, w', t)).
Proof.
  intros dir state. split; [reflexivity|]. split; [reflexivity|]. split; [reflexivity|].
  split.
  - intros c w' t H.
    apply on_save_spec in H as (_ & _ & Hret).
    destruct (Hret c eq_refl) as (_ & model & fs1 & Hm & Hs & Hf & Ht).
    exists model, fs1. split; [exact Hm|]. split.
    { destruct Ht as [-> | ->]; reflexivity. }
    split; [exact Hs|]. simpl in Hf. rewrite Hf. split.
    + apply lookup_delete_eq.
    + intros p Hp. apply lookup_delete_ne. intros E. apply Hp. symmetry. exact E.
  - intros model fs1 Hm Hs Hd.
    exact (on_save_returns ta state control kwargs w model fs1 Hm Hs Hd).
Qed.

(** C8. The callback hands back the very [control] it received, and all it
    does besides is on files: the heap is as before and the only calls are
    the adapter save and the removal of the snapshot. *)
Theorem on_save_returns_control ta state control kwargs w :
  (forall res w' t,
     on_save L ta state control kwargs w = (res, w', t) ->
     (forall c, res = inr c -> c = control) /\
     heap w' = heap w /\
     Forall is_fs_call t) /\
  (forall model fs1,
     kwargs !! "model" = Some model ->
     save_pretrained L model
       (adapter_path (TrainingArguments.output_dir ta) (global_step state)) (files w)
     = (inr tt, fs1) ->
     fs1 !! snapshot_path (TrainingArguments.output_dir ta) (global_step state) <> Some Dir ->
     exists w' t, on_save L ta state control kwargs w = (inr control, w', t)).
Proof.
  split.
  - intros res w' t H. apply on_save_spec in H as (Hh & Ht & Hret).
    split; [|split]; auto. intros c Hc. apply (Hret c Hc).
  - intros model fs1 Hm Hs Hd.
    exact (on_save_returns ta state control kwargs w model fs1 Hm Hs Hd).
Qed.

End Callback.

(** ** The preprocessing function *)

(** One step of a sequence whose intermediate result carries no fact. *)
Ltac hoare_seq :=
  eapply hoare_bind with (Qa := fun _ _ => True); try exact _.

Section Traverse.
Context {A B : Type} (g : A -> exn + B).

Lemma traverse_inr l ys :
  traverse g l = inr ys -> Forall2 (fun x y => g x = inr y) l ys /\ attempted g l = l.
Proof.
  revert ys. induction l as [|x l IH]; simpl; intros ys.
  - intros [= <-]. split; [constructor|reflexivity].
  - destruct (g x) as [e|y] eqn:Hx; [discriminate|].
    destruct (traverse g l) as [e|ys'] eqn:Hl; [discriminate|].
    intros [= <-]. destruct (IH ys' eq_refl) as [H1 H2].
    split; [constructor; assumption|]. f_equal. exact H2.
Qed.

Lemma traverse_total l :
  (forall x, In x l -> exists y, g x = inr y) -> exists ys, traverse g l = inr ys.
Proof.
  induction l as [|x l IH]; simpl; intros H.
  - eauto.
  - destruct (H x (or_introl eq_refl)) as [y ->].
    destruct IH as [ys ->]; eauto.
Qed.

Lemma attempted_incl l : incl (attempted g l) l.
Proof.
  induction l as [|x l IH]; simpl; [easy|].
  intros y [<- | Hy]; [left; reflexivity|].
  destruct (g x); [destruct Hy|]. right. apply IH, Hy.
Qed.

End Traverse.

Section Preprocessing.
Context {waveform features network : Type}.
Local Abbreviation M := (M waveform features network).
Implicit Types (w : world waveform features) (t : list (call waveform network)).

Lemma bind_eq_inr {X Y} (c : M X) (k : X -> M Y) w a w1 t1 :
  c w = (inr a, w1, t1) ->
  bind c k w = ((k a w1).1.1, (k a w1).1.2, t1 ++ (k a w1).2).
Proof. intros Hc. unfold bind. rewrite Hc. destruct (k a w1) as [[? ?] ?]. reflexivity. Qed.

(** A comprehension over a body that only calls out. *)
Lemma for_each_stateless {X Y} (f : X -> M Y) (g : X -> exn + Y)
    (tr : X -> call waveform network) l w :
  (forall x w, f x w = (g x, w, [tr x])) ->
  for_each f l w = (traverse g l, w, map tr (attempted g l)).
Proof.
  intros Hf. induction l as [|x l IH]; simpl; [reflexivity|].
  unfold bind at 1. rewrite Hf. destruct (g x) as [e|y]; [reflexivity|].
  unfold bind at 1. rewrite IH.
  destruct (traverse g l); simpl; rewrite ?app_nil_r; reflexivity.
Qed.

Lemma extract_body fe (a : audio waveform) w :
  ((out <- invoke (Call_feature_extractor (array a) (sampling_rate a))
             (fe (array a) (sampling_rate a)) ;;
    index0 out) : M features) w
  = (extract fe a, w, [Call_feature_extractor (array a) (sampling_rate a)]).
Proof.
  unfold bind, extract. rewrite invoke_eq.
  destruct (fe (array a) (sampling_rate a)) as [e|[|x out]]; reflexivity.
Qed.


Lemma bind_eq {X Y} (c : M X) (k : X -> M Y) w r w1 t1 :
  c w = (r, w1, t1) ->
  bind c k w = match r with
               | inr a => ((k a w1).1.1, (k a w1).1.2, t1 ++ (k a w1).2)
               | inl e => (inl e, w1, t1)
               end.
Proof.
  intros Hc. unfold bind. rewrite Hc. destruct r as [e|a]; [reflexivity|].
  destruct (k a w1) as [[? ?] ?]. reflexivity.
Qed.

Lemma getitem_eq d k w m v :
  heap w !! d = Some m -> m !! k = Some v ->
  getitem (network := network) d k w = (inr v, w, []).
Proof. intros H1 H2. unfold getitem. rewrite H1, H2. reflexivity. Qed.

Lemma setitem_eq d k v w m :
  heap w !! d = Some m ->
  setitem (network := network) d k v w
  = (inr tt, set_heap (<[d := <[k := v]> m]> (heap w)) w, []).
Proof. intros H1. unfold setitem. rewrite H1. reflexivity. Qed.

Lemma prepare_dataset_run fe tok batch w d audios sentences :
  heap w !! batch = Some d ->
  d !! "audio" = Some (VAudio audios) ->
  d !! "sentence" = Some (VSentence sentences) ->
  let l := fresh (dom (heap w)) in
  let calls_fe := map (fun a => Call_feature_extractor (array a) (sampling_rate a)) in
  prepare_dataset (network := network) fe tok batch w =
  match traverse (extract fe) audios with
  | inl e => (inl e, set_heap (<[l := ∅]> (heap w)) w,
              calls_fe (attempted (extract fe) audios))
  | inr input_features =>
      let row1 : gmap string (pyval waveform features) :=
        <["input_features" := VFeatures input_features]> ∅ in
      match traverse tok sentences with
      | inl e => (inl e, set_heap (<[l := row1]> (heap w)) w,
                  calls_fe audios ++ map Call_tokenizer (attempted tok sentences))
      | inr labels =>
          (inr l, set_heap (<[l := <["labels" := VLabels labels]> row1]> (heap w)) w,
           calls_fe audios ++ map Call_tokenizer sentences)
      end
  end.
Proof.
  intros Hb Ha Hs l calls_fe.
  assert (Hne : l <> batch).
  { intros E. pose proof (is_fresh (dom (heap w))) as Hf. fold l in Hf.
    apply Hf. rewrite E. apply elem_of_dom. eauto. }
  unfold prepare_dataset.
  set (w1 := set_heap (<[l := ∅]> (heap w)) w).
  assert (Hb1 : heap w1 !! batch = Some d).
  { simpl. rewrite lookup_insert_ne by exact Hne. exact Hb. }
  rewrite (bind_eq_inr _ _ w l w1 []) by reflexivity.
  rewrite (bind_eq_inr _ _ w1 audios w1 []).
  2:{ rewrite (bind_eq_inr _ _ w1 (VAudio audios) w1 []) by (eapply getitem_eq; eauto).
      reflexivity. }
  rewrite (bind_eq _ _ w1 _ w1 _ (for_each_stateless _ (extract fe) _ audios w1 (extract_body fe))).
  fold (calls_fe (attempted (extract fe) audios)).
  destruct (traverse (extract fe) audios) as [e|input_features] eqn:Hfe; [reflexivity|].
  apply traverse_inr in Hfe as [_ ->].
  assert (Hl1 : heap w1 !! l = Some ∅) by apply lookup_insert_eq.
  rewrite (bind_eq_inr _ _ w1 tt _ [] (setitem_eq l _ _ w1 ∅ Hl1)).
  set (row1 := <["input_features" := VFeatures input_features]> ∅).
  set (w2 := set_heap _ w1).
  assert (Hb2 : heap w2 !! batch = Some d).
  { subst w2. simpl. rewrite !lookup_insert_ne by exact Hne. exact Hb. }
  assert (Hl2 : heap w2 !! l = Some row1) by apply lookup_insert_eq.
  rewrite (bind_eq_inr _ _ w2 sentences w2 []).
  2:{ rewrite (bind_eq_inr _ _ w2 (VSentence sentences) w2 []) by (eapply getitem_eq; eauto).
      reflexivity. }
  rewrite (bind_eq _ _ w2 _ w2 _
             (for_each_stateless _ tok Call_tokenizer sentences w2
                (fun s w => invoke_eq (Call_tokenizer s) (tok s) w))).
  assert (Hw2 : w2 = set_heap (<[l := row1]> (heap w)) w).
  { subst w2 w1. unfold set_heap. simpl. f_equal. apply insert_insert_eq. }
  destruct (traverse tok sentences) as [e|labels] eqn:Htok.
  { simpl. rewrite Hw2. reflexivity. }
  apply traverse_inr in Htok as [_ ->].
  rewrite (bind_eq_inr _ _ w2 tt _ [] (setitem_eq l _ _ w2 row1 Hl2)).
  unfold ret. simpl. rewrite !app_nil_r. rewrite Hw2. unfold set_heap. simpl.
  rewrite !insert_insert_eq. reflexivity.
Qed.
Lemma extract_inr fe (a : audio waveform) (f : features) :
  extract fe a = inr f -> exists rest, fe (array a) (sampling_rate a) = inr (f :: rest).
Proof.
  unfold extract. destruct (fe (array a) (sampling_rate a)) as [e|[|x out]]; try discriminate.
  intros [= <-]. eauto.
Qed.

(** C4. On a batch with an audio column and a transcript column, the
    dictionary [prepare_dataset] returns holds exactly [input_features] and
    [labels], as long as the audio list and the transcript list
    respectively, and position [i] of each is the feature extractor's first
    output on audio [i] and the tokenizer's ids for transcript [i].  It
    returns whenever the two collaborators do on every record. *)
Theorem prepare_dataset_batch fe tok batch w d audios sentences :
  heap w !! batch = Some d ->
  d !! "audio" = Some (VAudio audios) ->
  d !! "sentence" = Some (VSentence sentences) ->
  (forall new_batch w' t,
     prepare_dataset (network := network) fe tok batch w = (inr new_batch, w', t) ->
     exists input_features labels,
       heap w' !! new_batch
       = Some (<["labels" := VLabels labels]>
                 (<["input_features" := VFeatures input_features]> ∅)) /\
       length input_features = length audios /\
       length labels = length sentences /\
       (forall i a, audios !! i = Some a ->
          exists f rest, input_features !! i = Some f /\
                         fe (array a) (sampling_rate a) = inr (f :: rest)) /\
       (forall i s, sentences !! i = Some s ->
          exists ids, labels !! i = Some ids /\ tok s = inr ids)) /\
  ((forall a, In a audios ->
      exists f rest, fe (array a) (sampling_rate a) = inr (f :: rest)) ->
   (forall s, In s sentences -> exists ids, tok s = inr ids) ->
   exists new_batch w' t,
     prepare_dataset (network := network) fe tok batch w = (inr new_batch, w', t)).
Proof.
  intros Hb Ha Hs. rewrite (prepare_dataset_run fe tok batch w d audios sentences Hb Ha Hs).
  split.
  - intros new_batch w' t.
    destruct (traverse (extract fe) audios) as [e|input_features] eqn:Hfe; [discriminate|].
    destruct (traverse tok sentences) as [e|labels] eqn:Htok; [discriminate|].
    intros [= <- <- <-].
    apply traverse_inr in Hfe as [Hfe _]. apply traverse_inr in Htok as [Htok _].
    exists input_features, labels. split; [apply lookup_insert_eq|].
    split; [symmetry; eapply Forall2_length; eassumption|].
    split; [symmetry; eapply Forall2_length; eassumption|].
    split.
    + intros i a Hi. destruct (Forall2_lookup_l _ _ _ _ _ Hfe Hi) as (f & Hf & Hx).
      apply extract_inr in Hx as [rest Hx]. eauto.
    + intros i s0 Hi. destruct (Forall2_lookup_l _ _ _ _ _ Htok Hi) as (ids & Hf & Hx).
      eauto.
  - intros Hfe Htok.
    destruct (traverse_total (extract fe) audios) as [input_features ->].
    { intros a Hin. destruct (Hfe a Hin) as (f & rest & Hx).
      exists f. unfold extract. rewrite Hx. reflexivity. }
    destruct (traverse_total tok sentences Htok) as [labels ->].
    eauto.
Qed.

(** *** The frame of [prepare_dataset] *)

#[local] Instance only_touches_preorder l :
  PreOrder (only_touches (waveform := waveform) (features := features) l).
Proof.
  split.
  - intros w. split; reflexivity.
  - intros w1 w2 w3 [Hf1 Hh1] [Hf2 Hh2]. split.
    + rewrite Hf2. exact Hf1.
    + intros k Hk. rewrite (Hh2 k Hk). apply Hh1, Hk.
Qed.

Lemma hoare_silent {X} (I : relation (world waveform features)) `{!PreOrder I}
    (P : call waveform network -> Prop) Pre (c : M X) (Q : X -> world waveform features -> Prop) :
  silent c -> (forall a w, Pre w -> Q a w) -> hoare I P Pre c Q.
Proof.
  intros Hc HQ w res w' t Hpre H. destruct (Hc w) as [r Hr].
  rewrite Hr in H. injection H as <- <- <-.
  split; [reflexivity|]. split; [constructor|]. intros a _. apply HQ, Hpre.
Qed.

Lemma silent_getitem d k : silent (getitem (waveform := waveform) (features := features) (network := network) d k).
Proof.
  intros w. unfold getitem. destruct (heap w !! d) as [m|]; [|eauto].
  destruct (m !! k); eauto.
Qed.

Lemma silent_bind {X Y} (c : M X) (k : X -> M Y) :
  silent c -> (forall a, silent (k a)) -> silent (bind c k).
Proof.
  intros Hc Hk w. destruct (Hc w) as [[e|a] Hr]; unfold bind; rewrite Hr; [eauto|].
  destruct (Hk a w) as [r' ->]. eauto.
Qed.

Lemma silent_as_audio v : silent (as_audio (waveform := waveform) (features := features) (network := network) v).
Proof. intros w. destruct v; simpl; eauto. Qed.

Lemma silent_as_sentence v : silent (as_sentence (waveform := waveform) (features := features) (network := network) v).
Proof. intros w. destruct v; simpl; eauto. Qed.

Lemma hoare_setitem_own l k (v : pyval waveform features)
    (P : call waveform network -> Prop) Pre :
  hoare (only_touches l) P Pre (setitem l k v) (fun _ _ => True).
Proof.
  intros w res w' t _ H. unfold setitem in H.
  destruct (heap w !! l) as [m|]; injection H as <- <- <-.
  - split; [|split; [constructor|auto]].
    split; [reflexivity|]. intros k' Hk'. simpl. apply lookup_insert_ne. congruence.
  - split; [reflexivity|]. split; [constructor|auto].
Qed.

(** C9. [prepare_dataset] builds its result in a dictionary of its own:
    whatever the batch and whatever the outcome, the files and every object
    that was on the heap before, the batch among them, are unchanged, the
    only calls are to the feature extractor and the tokenizer, and the
    dictionary it returns was not on the heap before. *)
Theorem prepare_dataset_is_pure fe tok batch w res w' t :
  prepare_dataset (network := network) fe tok batch w = (res, w', t) ->
  files w' = files w /\
  (forall k, (k ∈ dom (heap w)) -> heap w' !! k = heap w !! k) /\
  Forall is_preprocessing_call t /\
  (forall new_batch, res = inr new_batch ->
     (new_batch ∉ dom (heap w)) /\
     forall k, k <> new_batch -> heap w' !! k = heap w !! k).
Proof.
  intros H. unfold prepare_dataset in H.
  set (l := fresh (dom (heap w))) in *.
  assert (Hfresh : l ∉ dom (heap w)) by apply is_fresh.
  apply bind_inv in H as [(e & [=] & _) | (l' & w1 & t1 & t2 & [= <- <- <-] & H & ->)].
  fold l in H.
  lazymatch type of H with
  | ?c _ = _ =>
      assert (Hrest : hoare (only_touches l) is_preprocessing_call (fun _ => True) c
                        (fun new_batch _ => new_batch = l))
  end.
  { hoare_seq.
    { apply hoare_silent; try exact _; [|auto].
      apply silent_bind; [apply silent_getitem|apply silent_as_audio]. }
    intros audios. hoare_seq.
    { eapply hoare_consequence;
        [| |apply (hoare_for_each _ _ (fun _ => True) (fun _ _ => True))];
        try exact _; [auto|auto|].
      intros a _ w0 r0 w0' t0 _ H0. rewrite extract_body in H0.
      injection H0 as <- <- <-. split; [reflexivity|].
      split; [repeat constructor|auto]. }
    intros input_features. hoare_seq.
    { apply hoare_setitem_own. }
    intros _. hoare_seq.
    { apply hoare_silent; try exact _; [|auto].
      apply silent_bind; [apply silent_getitem|apply silent_as_sentence]. }
    intros sentences. hoare_seq.
    { eapply hoare_consequence;
        [| |apply (hoare_for_each _ _ (fun _ => True) (fun _ _ => True))];
        try exact _; [auto|auto|].
      intros s0 _. apply hoare_invoke; try exact _; [exact I|auto]. }
    intros labels. hoare_seq.
    { apply hoare_setitem_own. }
    intros _. apply hoare_ret; try exact _; auto. }
  destruct (Hrest _ _ _ _ I H) as ([Hf Hh] & HP & HQ). simpl in Hf, Hh.
  split; [exact Hf|]. split; [|split; [exact HP|]].
  - intros k Hk. assert (k <> l) by (intros ->; contradiction).
    rewrite Hh by assumption. apply lookup_insert_ne. congruence.
  - intros nb Hnb. rewrite (HQ nb Hnb). split; [exact Hfresh|].
    intros k Hk. rewrite Hh by assumption. apply lookup_insert_ne. congruence.
Qed.

End Preprocessing.

(** ** The dataset the script builds *)

Section Data.
Context {waveform features network : Type}.
Variable L : Library waveform features network.
Local Abbreviation M := (M waveform features network).
Implicit Types (w : world waveform features) (t : list (call waveform network)).

Lemma load_data_inv args transform w dd w1 t1 :
  load_data L args transform w = (inr dd, w1, t1) ->
  w1 = w /\
  t1 = [Call_load_dataset "json" (Args.train_data args) (Args.test_data args);
        Call_cast_column "audio" 16000; Call_with_transform] /\
  exists tr te,
    load_dataset L "json" (Args.train_data args) (Args.test_data args) = inr (tr, te) /\
    dd = {| train := {| rows := tr; audio_feature := Some 16000;
                        format_transform := Some transform |};
            test := {| rows := te; audio_feature := Some 16000;
                       format_transform := Some transform |} |}.
Proof.
  unfold load_data. unfold bind at 1. rewrite invoke_eq.
  destruct (load_dataset L "json" (Args.train_data args) (Args.test_data args))
    as [e|[tr te]]; [discriminate|].
  unfold bind, log, ret. simpl. intros [= <- <- <-]. eauto 10.
Qed.

Lemma rows_lookup_eq (ds : Dataset waveform features network) idx w :
  for_each (fun i => match rows ds !! i with
                     | Some row => ret row
                     | None => raise IndexError
                     end : M raw_record) idx w
  = (traverse (fun i => match rows ds !! i with
                        | Some row => inr row
                        | None => inl IndexError
                        end) idx, w, []).
Proof.
  induction idx as [|i idx IH]; simpl; [reflexivity|].
  unfold bind at 1. destruct (rows ds !! i) as [row|]; [|reflexivity].
  unfold ret at 1. unfold bind at 1. rewrite IH.
  destruct (traverse _ idx); reflexivity.
Qed.

(** C10. Both splits carry the audio feature at 16000 Hz, so whenever rows
    of either split are read, each row is decoded at 16000 Hz first and,
    the decoder honouring the rate it is given, every call to the feature
    extractor passes 16000 as the sampling rate. *)
Theorem feature_extractor_rate_16000 args fe tok w dd w1 t1 :
  (forall rate path a, decode_example L (Some rate) path = inr a -> sampling_rate a = rate) ->
  load_data L args (prepare_dataset fe tok) w = (inr dd, w1, t1) ->
  In (Call_cast_column "audio" 16000) t1 /\
  forall ds, ds = train dd \/ ds = test dd ->
    audio_feature ds = Some 16000 /\
    forall idx w2 res w3 t,
      Dataset_getitem L ds idx w2 = (res, w3, t) ->
      Forall (at_rate 16000) t /\
      exists read t_pre,
        t = map (fun row => Call_decode_example (Some 16000) (audio_path row)) read ++ t_pre /\
        Forall is_preprocessing_call t_pre.
Proof.
  intros Hdec Hload.
  apply load_data_inv in Hload as (_ & -> & tr & te & _ & ->).
  split; [right; left; reflexivity|].
  assert (Hds : forall rws idx w2 res w3 t,
            Dataset_getitem L {| rows := rws; audio_feature := Some 16000;
                                 format_transform := Some (prepare_dataset fe tok) |}
              idx w2 = (res, w3, t) ->
            Forall (at_rate 16000) t /\
            exists read t_pre,
              t = map (fun row => Call_decode_example (Some 16000) (audio_path row)) read
                  ++ t_pre /\
              Forall is_preprocessing_call t_pre).
  { intros rws idx w2 res w3 t H. unfold Dataset_getitem in H.
    rewrite (bind_eq _ _ _ _ _ _ (rows_lookup_eq _ idx w2)) in H.
    cbn [audio_feature format_transform] in H.
    destruct (traverse _ idx) as [e|rs].
    { injection H as <- <- <-. split; [constructor|]. exists [], []. split; [reflexivity|constructor]. }
    set (dec := fun row : raw_record => decode_example L (Some 16000) (audio_path row)) in *.
    set (cd := fun row : raw_record =>
                 Call_decode_example (waveform := waveform) (network := network)
                   (Some 16000) (audio_path row)) in *.
    rewrite (bind_eq _ _ _ _ _ _
               (for_each_stateless _ dec cd rs w2 (fun row w => invoke_eq (cd row) (dec row) w)))
      in H.
    assert (Hcd : forall l, Forall (at_rate 16000) (map cd l)).
    { intros l. apply Forall_map. apply Forall_forall. intros; reflexivity. }
    destruct (traverse dec rs) as [e|audios] eqn:Hdecs.
    { injection H as <- <- <-. split; [simpl; apply Hcd|].
      exists (attempted dec rs), []. split; [symmetry; apply app_nil_r|constructor]. }
    apply traverse_inr in Hdecs as [Hdecs Hatt]. rewrite Hatt in H. clear Hatt.
    assert (Hrates : Forall (fun a => sampling_rate a = 16000) audios).
    { clear H. induction Hdecs; constructor; eauto. }
    set (l := fresh (dom (heap w2))) in *.
    set (wa := set_heap (<[l := ∅]> (heap w2)) w2) in *.
    rewrite (bind_eq_inr _ _ w2 l wa []) in H by reflexivity.
    assert (Hl : heap wa !! l = Some ∅) by apply lookup_insert_eq.
    rewrite (bind_eq_inr _ _ wa tt _ [] (setitem_eq l _ _ wa ∅ Hl)) in H.
    set (wb := set_heap _ wa) in *.
    assert (Hlb : heap wb !! l = Some (<["audio" := VAudio audios]> ∅))
      by apply lookup_insert_eq.
    rewrite (bind_eq_inr _ _ wb tt _ [] (setitem_eq l _ _ wb _ Hlb)) in H.
    set (wc := set_heap _ wb) in *.
    assert (Hlc : heap wc !! l
                  = Some (<["sentence" := VSentence (map sentence rs)]>
                            (<["audio" := VAudio audios]> ∅)))
      by apply lookup_insert_eq.
    rewrite (prepare_dataset_run fe tok l wc _ audios (map sentence rs) Hlc) in H
      by (simplify_map_eq; reflexivity).
    assert (Hfe : forall l', incl l' audios ->
              Forall (at_rate 16000)
                (map (fun a => Call_feature_extractor (waveform := waveform)
                                 (network := network) (array a) (sampling_rate a)) l') /\
              Forall is_preprocessing_call
                (map (fun a => Call_feature_extractor (waveform := waveform)
                                 (network := network) (array a) (sampling_rate a)) l')).
    { intros l' Hin. split; apply Forall_map; apply Forall_forall; intros a Ha; simpl; [|exact I].
      rewrite Forall_forall in Hrates. apply Hrates.
      apply list_elem_of_In, Hin, list_elem_of_In, Ha. }
    assert (Htk : forall l' : list string,
              Forall (at_rate 16000) (map (Call_tokenizer (waveform := waveform)
                                             (network := network)) l') /\
              Forall is_preprocessing_call (map (Call_tokenizer (waveform := waveform)
                                                   (network := network)) l')).
    { intros l'. split; apply Forall_map; apply Forall_forall; intros; exact I. }
    destruct (traverse (extract fe) audios) as [e|input_features].
    { injection H as <- <- <-. simpl.
      destruct (Hfe _ (attempted_incl (extract fe) audios)) as [H1 H2].
      split.
      - apply Forall_app. split; [apply Hcd|]. simpl. exact H1.
      - exists rs. eexists. split; [reflexivity|]. simpl. exact H2. }
    destruct (Hfe audios (incl_refl _)) as [H1 H2].
    destruct (traverse tok (map sentence rs)) as [e|labels];
      injection H as <- <- <-; simpl.
    - destruct (Htk (attempted tok (map sentence rs))) as [H3 H4]. split.
      + apply Forall_app. split; [apply Hcd|]. apply Forall_app; auto.
      + exists rs. eexists. split; [reflexivity|]. apply Forall_app; auto.
    - destruct (Htk (map sentence rs)) as [H3 H4]. split.
      + apply Forall_app. split; [apply Hcd|]. apply Forall_app; auto.
      + exists rs. eexists. split; [reflexivity|]. apply Forall_app; auto. }
  intros ds [-> | ->]; simpl; (split; [reflexivity|]); apply Hds.
Qed.

End Data.

(** ** The script *)

Section Script.
Context {waveform features network : Type}.
Variable L : Library waveform features network.
Local Abbreviation M := (M waveform features network).
Implicit Types (w : world waveform features) (t : list (call waveform network)).

Lemma build_model_unfold args w :
  build_model L args w =
  match WhisperForConditionalGeneration_from_pretrained L (Args.base_model args) true "auto" with
  | inl e => (inl e, w, [Call_Model_from_pretrained (Args.base_model args) true "auto"])
  | inr m0 =>
      let m0' := set_suppress_tokens [] (set_forced_decoder_ids None m0) in
      match prepare_model_for_int8_training L m0' "proj_out" with
      | inl e => (inl e, w, [Call_Model_from_pretrained (Args.base_model args) true "auto";
                             Call_prepare_model_for_int8_training m0' "proj_out"])
      | inr m1 =>
          match get_peft_model L m1 lora_config with
          | inl e => (inl e, w, [Call_Model_from_pretrained (Args.base_model args) true "auto";
                                 Call_prepare_model_for_int8_training m0' "proj_out";
                                 Call_get_peft_model m1 lora_config])
          | inr model =>
              (inr model, w, [Call_Model_from_pretrained (Args.base_model args) true "auto";
                              Call_prepare_model_for_int8_training m0' "proj_out";
                              Call_get_peft_model m1 lora_config])
          end
      end
  end.
Proof.
  unfold build_model. unfold bind at 1. rewrite invoke_eq.
  destruct (WhisperForConditionalGeneration_from_pretrained L _ true "auto") as [e|m0];
    [reflexivity|].
  unfold bind at 1. rewrite invoke_eq.
  destruct (prepare_model_for_int8_training L _ "proj_out") as [e|m1]; [reflexivity|].
  unfold bind at 1. rewrite invoke_eq.
  destruct (get_peft_model L m1 lora_config) as [e|model]; reflexivity.
Qed.

(** C6. The adaptation wrapper, in order: the base model is loaded in
    8-bit with automatic device mapping; on that model the forced decoder
    ids are set to none and the suppressed tokens to the empty list; the
    model so configured is prepared for int8 training; and the prepared
    model is wrapped with a LoRA configuration of rank 32, scaling 64,
    dropout 0.05, no bias training, on [q_proj] and [v_proj] only. *)
Theorem build_model_steps args w :
  (forall model w' t,
     build_model L args w = (inr model, w', t) ->
     exists m0 m1,
       let m0' := set_suppress_tokens [] (set_forced_decoder_ids None m0) in
       WhisperForConditionalGeneration_from_pretrained L (Args.base_model args) true "auto"
       = inr m0 /\
       forced_decoder_ids (config m0') = None /\
       suppress_tokens (config m0') = [] /\
       use_cache (config m0') = use_cache (config m0) /\
       net m0' = net m0 /\
       prepare_model_for_int8_training L m0' "proj_out" = inr m1 /\
       get_peft_model L m1 lora_config = inr model /\
       w' = w /\
       t = [Call_Model_from_pretrained (Args.base_model args) true "auto";
            Call_prepare_model_for_int8_training m0' "proj_out";
            Call_get_peft_model m1 lora_config]) /\
  (LoraConfig.r lora_config = 32 /\
   LoraConfig.lora_alpha lora_config = 64 /\
   LoraConfig.lora_dropout lora_config = 5 # 100 /\
   LoraConfig.target_modules lora_config = ["q_proj"; "v_proj"] /\
   LoraConfig.bias lora_config = "none") /\
  (forall m0 m1 model,
     WhisperForConditionalGeneration_from_pretrained L (Args.base_model args) true "auto"
     = inr m0 ->
     prepare_model_for_int8_training L
       (set_suppress_tokens [] (set_forced_decoder_ids None m0)) "proj_out" = inr m1 ->
     get_peft_model L m1 lora_config = inr model ->
     exists t, build_model L args w = (inr model, w, t)).
Proof.
  rewrite build_model_unfold. split; [|split].
  - intros model w' t.
    destruct (WhisperForConditionalGeneration_from_pretrained L _ true "auto") as [e|m0];
      [discriminate|].
    simpl.
    destruct (prepare_model_for_int8_training L _ "proj_out") as [e|m1] eqn:Hp;
      [discriminate|].
    destruct (get_peft_model L m1 lora_config) as [e|model'] eqn:Hg; [discriminate|].
    intros [= <- <- <-]. exists m0, m1. simpl. repeat split; auto.
  - repeat split.
  - intros m0 m1 model -> Hp Hg. simpl. rewrite Hp, Hg. eauto.
Qed.

(** C5. A base-model identifier whose directory part is not [openai]
    stops the script at the assertion: by then it has only printed its
    arguments, so no dataset has been loaded and no file touched.  With the
    directory part [openai] the script goes on to its next statement, the
    loading of the feature extractor. *)
Theorem base_model_check args w :
  (os_path_dirname (Args.base_model args) <> "openai" ->
   main L args w
   = (inl (AssertionError (assertion_message (Args.base_model args))), w,
      [Call_print_arguments args]) /\
   forall fmt a b, ~ In (Call_load_dataset fmt a b)
                      [Call_print_arguments (waveform := waveform) (network := network) args]) /\
  (os_path_dirname (Args.base_model args) = "openai" ->
   exists res w' t,
     main L args w
     = (res, w',
        Call_print_arguments args
        :: Call_FeatureExtractor_from_pretrained (Args.base_model args) :: t)).
Proof.
  split; intros Hd; unfold main;
    rewrite (bind_eq_inr _ _ w tt w [Call_print_arguments args]) by reflexivity.
  - assert (Hb : String.eqb "openai" (os_path_dirname (Args.base_model args)) = false).
    { apply String.eqb_neq. congruence. }
    rewrite Hb. simpl py_assert. split.
    + rewrite (bind_inl _ _ w _ w []) by reflexivity. reflexivity.
    + intros fmt a b [H|[]]. discriminate.
  - rewrite Hd. simpl py_assert.
    rewrite (bind_eq_inr _ _ w tt w []) by reflexivity.
    rewrite (bind_eq _ _ _ _ _ _ (invoke_eq _ _ w)).
    destruct (WhisperFeatureExtractor_from_pretrained L (Args.base_model args)) as [e|fe].
    + simpl. eauto.
    + simpl. eauto.
Qed.

(** *** Where the checkpoint paths lie *)

Lemma checkpoint_folder_output N :
  checkpoint_folder "output" N = "output/checkpoint-" +:+ pretty N.
Proof. reflexivity. Qed.

Lemma adapter_path_under_output N :
  String.prefix "output/" (adapter_path "output" N) = true /\
  adapter_path "output" N <> "output".
Proof.
  unfold adapter_path. rewrite checkpoint_folder_output. unfold os_path_join.
  simpl startswith_sep. cbv iota.
  destruct (String.eqb _ "" || endswith_sep _)%bool; split; (reflexivity || discriminate).
Qed.

Lemma snapshot_path_under_output N :
  String.prefix "output/" (snapshot_path "output" N) = true.
Proof.
  unfold snapshot_path. rewrite checkpoint_folder_output. unfold os_path_join.
  simpl startswith_sep. cbv iota.
  destruct (String.eqb _ "" || endswith_sep _)%bool; reflexivity.
Qed.

Lemma loop_call_under_output (c : call waveform network) :
  loop_call "output" c -> under_output c.
Proof.
  intros [N [-> | [[model ->] | ->]]]; simpl.
  - reflexivity.
  - right. apply adapter_path_under_output.
  - right. apply snapshot_path_under_output.
Qed.

(** *** The calls of the training loop *)

Lemma on_save_calls ta state control kwargs w res w' t :
  on_save L ta state control kwargs w = (res, w', t) ->
  Forall (loop_call (TrainingArguments.output_dir ta)) t.
Proof.
  rewrite on_save_unfold.
  set (dir := TrainingArguments.output_dir ta). set (N := global_step state).
  assert (Hsave : forall model,
            loop_call (waveform := waveform) (network := network) dir
              (Call_save_pretrained model (adapter_path dir N))).
  { intros model. exists N. right. left. eauto. }
  destruct (kwargs !! "model") as [model|]; [|intros [= <- <- <-]; constructor].
  destruct (save_pretrained L model (adapter_path dir N) (files w)) as [[e|[]] fs1].
  { intros [= <- <- <-]. repeat constructor. apply Hsave. }
  destruct (remove_unneeded_model (checkpoint_folder dir N) (set_files fs1 w))
    as [[r2 w2] t2] eqn:Hr.
  apply remove_unneeded_spec in Hr as (_ & Ht & _).
  assert (Ht2 : Forall (loop_call dir) (Call_save_pretrained model (adapter_path dir N) :: t2)).
  { constructor; [apply Hsave|].
    destruct Ht as [-> | ->]; repeat constructor. exists N. right. right. reflexivity. }
  destruct r2 as [e|[]]; intros [= <- <- <-]; exact Ht2.
Qed.

Lemma trainer_checkpoint_calls ta ev w res w' t :
  trainer_checkpoint L ta ev w = (res, w', t) ->
  Forall (loop_call (TrainingArguments.output_dir ta)) t.
Proof.
  unfold trainer_checkpoint. intros H.
  assert (Hown : loop_call (waveform := waveform) (network := network)
                   (TrainingArguments.output_dir ta)
                   (Call_trainer_checkpoint (TrainingArguments.output_dir ta) (ev_step ev))).
  { exists (ev_step ev). left. reflexivity. }
  apply bind_inv in H as [(e & H & _) | (a & w1 & t1 & t2 & H1 & H2 & ->)].
  - destruct (trainer_save_checkpoint L _ _ _ _) as [r fs]. injection H as _ _ <-.
    repeat constructor. exact Hown.
  - destruct (trainer_save_checkpoint L _ _ _ _) as [r fs]. injection H1 as _ _ <-.
    apply Forall_app. split; [repeat constructor; exact Hown|].
    apply bind_inv in H2 as [(e & H & _) | (c & w2 & t3 & t4 & H3 & H4 & ->)].
    + eapply on_save_calls, H.
    + injection H4 as _ _ <-. rewrite app_nil_r. eapply on_save_calls, H3.
Qed.

Lemma training_loop_calls ta events w res w' t :
  training_loop L ta events w = (res, w', t) ->
  Forall (loop_call (TrainingArguments.output_dir ta)) t.
Proof.
  revert w res w' t. induction events as [|ev events IH]; simpl; intros w res w' t H.
  - injection H as _ _ <-. constructor.
  - apply bind_inv in H as [(e & H & _) | (a & w1 & t1 & t2 & H1 & H2 & ->)].
    + eapply trainer_checkpoint_calls, H.
    + apply Forall_app. split; [eapply trainer_checkpoint_calls, H1|eapply IH, H2].
Qed.

(** *** Every call of the script stays under [output] *)

#[local] Instance any_change_preorder :
  PreOrder (any_change (waveform := waveform) (features := features)).
Proof. split; repeat intro; exact I. Qed.

Local Abbreviation triple P c :=
  (hoare any_change P (fun _ => True) c (fun _ _ => True)).

Lemma triple_of_calls {X} (P : call waveform network -> Prop) (c : M X) :
  (forall w res w' t, c w = (res, w', t) -> Forall P t) -> triple P c.
Proof.
  intros Hc w res w' t _ H. split; [exact I|]. split; [eapply Hc, H|auto].
Qed.

Lemma load_data_triple P args transform :
  (forall c : call waveform network, under_output c -> P c) ->
  triple P (load_data L args transform).
Proof.
  intros HP. unfold load_data.
  hoare_seq. { apply hoare_invoke; try exact _; [apply HP; exact I|auto]. }
  intros splits. hoare_seq. { apply hoare_log; try exact _; [apply HP; exact I|auto]. }
  intros _. hoare_seq. { apply hoare_log; try exact _; [apply HP; exact I|auto]. }
  intros _. apply hoare_ret; try exact _; auto.
Qed.

Lemma main_under_output args : triple under_output (main L args).
Proof.
  unfold main.
  hoare_seq. { apply hoare_log; try exact _; [exact I|auto]. }
  intros _. hoare_seq.
  { unfold py_assert. destruct (String.eqb _ _);
      [apply hoare_ret|apply hoare_raise]; try exact _; auto. }
  intros _. hoare_seq. { apply hoare_invoke; try exact _; [exact I|auto]. }
  intros feature_extractor. hoare_seq. { apply hoare_invoke; try exact _; [exact I|auto]. }
  intros tokenizer. hoare_seq. { apply hoare_invoke; try exact _; [exact I|auto]. }
  intros processor. hoare_seq. { apply load_data_triple. auto. }
  intros audio_data. hoare_seq. { apply hoare_log; try exact _; [exact I|auto]. }
  intros _. hoare_seq.
  { apply triple_of_calls. intros w res w' t. rewrite build_model_unfold.
    destruct (WhisperForConditionalGeneration_from_pretrained L _ true "auto") as [e|m0];
      [intros [= <- <- <-]; repeat constructor|].
    simpl. destruct (prepare_model_for_int8_training L _ "proj_out") as [e|m1];
      [intros [= <- <- <-]; repeat constructor|].
    destruct (get_peft_model L m1 lora_config) as [e|model'];
      intros [= <- <- <-]; repeat constructor. }
  intros model. hoare_seq. { apply hoare_log; try exact _; [exact I|auto]. }
  intros _. hoare_seq. { apply hoare_log; try exact _; [exact I|auto]. }
  intros _. hoare_seq. { apply hoare_log; try exact _; [exact I|auto]. }
  intros _. hoare_seq. { apply hoare_invoke; try exact _; [reflexivity|auto]. }
  intros _. hoare_seq.
  { unfold trainer_train.
    hoare_seq. { apply hoare_log; try exact _; [exact I|auto]. }
    intros _. hoare_seq.
    { apply triple_of_calls. intros w res w' t H.
      apply training_loop_calls in H. eapply Forall_impl; [exact H|].
      intros c. apply loop_call_under_output. }
    intros _. apply hoare_lift; try exact _; auto. }
  intros trained. destruct (_ =? 0).
  - apply triple_of_calls. intros w res w' t. unfold model_save_pretrained.
    destruct (save_pretrained L _ _ _) as [r fs]. intros [= <- <- <-].
    constructor; [left; reflexivity|constructor].
  - apply hoare_ret; try exact _; auto.
Qed.

Lemma print_then (k1 k2 : unit -> M unit) a1 a2 w :
  k1 = k2 ->
  exists res w' t,
    bind (log (Call_print_arguments a1)) k1 w = (res, w', Call_print_arguments a1 :: t) /\
    bind (log (Call_print_arguments a2)) k2 w = (res, w', Call_print_arguments a2 :: t).
Proof.
  intros <-. unfold bind, log. destruct (k1 tt w) as [[res w'] t].
  exists res, w', t. split; reflexivity.
Qed.

(** C7. The [--output_path] flag decides nothing about what is written:
    two runs that differ only in it end the same way, leave the same world
    and make the same calls after printing their arguments; and in every
    run the trainer is given the directory [output], its checkpoints are
    taken there, and every save and removal the script makes is at [output]
    or below it. *)
Theorem output_path_is_ignored args v w :
  exists res w' t,
    main L args w = (res, w', Call_print_arguments args :: t) /\
    main L (Args.set_output_path v args) w
    = (res, w', Call_print_arguments (Args.set_output_path v args) :: t) /\
    Forall under_output t.
Proof.
  assert (Heq : exists res w' t,
            main L args w = (res, w', Call_print_arguments args :: t) /\
            main L (Args.set_output_path v args) w
            = (res, w', Call_print_arguments (Args.set_output_path v args) :: t)).
  { destruct args. apply print_then. reflexivity. }
  destruct Heq as (res & w' & t & H1 & H2). exists res, w', t.
  split; [exact H1|]. split; [exact H2|].
  destruct (main_under_output args w _ _ _ I H1) as (_ & Hcalls & _).
  apply Forall_cons in Hcalls as [_ Hcalls]. exact Hcalls.
Qed.

(** *** A completed run, taken apart *)

Ltac step_inr H H1 :=
  apply bind_inr_inv in H as (? & ? & ? & ? & H1 & H & ->).

Lemma main_inv args w w' t :
  main L args w = (inr tt, w', t) ->
  let ta := make_training_args L args in
  exists model trained t_before w_loop t_loop t_final,
    t = t_before ++ t_loop ++ t_final /\
    Forall (fun c => ~ is_fs_call c) t_before /\
    training_loop L ta
      (checkpoint_events L ta (set_use_cache false model) (Args.resume_from_checkpoint args)) w
    = (inr tt, w_loop, t_loop) /\
    train_result L ta (set_use_cache false model) (Args.resume_from_checkpoint args)
    = inr trained /\
    (if process_local_rank L =? 0
     then t_final = [Call_save_pretrained trained "output"] /\
          model_save_pretrained L trained "output" w_loop = (inr tt, w', t_final)
     else t_final = [] /\ w' = w_loop).
Proof.
  intros H ta. unfold main in H.
  step_inr H H1. injection H1 as <- <- <-.
  step_inr H H1. unfold py_assert in H1.
  destruct (String.eqb _ _); [|discriminate]. injection H1 as <- <- <-.
  step_inr H H1. rewrite invoke_eq in H1. injection H1 as _ <- <-.
  step_inr H H1. rewrite invoke_eq in H1. injection H1 as _ <- <-.
  step_inr H H1. rewrite invoke_eq in H1. injection H1 as _ <- <-.
  step_inr H H1. apply load_data_inv in H1 as (-> & -> & _).
  step_inr H H1. injection H1 as <- <- <-.
  step_inr H H1. rewrite build_model_unfold in H1.
  destruct (WhisperForConditionalGeneration_from_pretrained L _ true "auto") as [e|m0];
    [discriminate|].
  simpl in H1.
  destruct (prepare_model_for_int8_training L _ "proj_out") as [e|m1]; [discriminate|].
  destruct (get_peft_model L m1 lora_config) as [e|model]; [discriminate|].
  injection H1 as <- <- <-.
  step_inr H H1. injection H1 as <- <- <-.
  step_inr H H1. injection H1 as <- <- <-.
  step_inr H H1. injection H1 as <- <- <-.
  step_inr H H1. rewrite invoke_eq in H1. injection H1 as _ <- <-.
  step_inr H H1. unfold trainer_train in H1.
  step_inr H1 H2. injection H2 as <- <- <-.
  step_inr H1 H2.
  match type of H2 with _ = (inr ?u, _, _) => destruct u end.
  match type of H1 with lift ?r _ = _ => destruct r as [e|trained] eqn:Htr end;
    [discriminate|].
  injection H1 as <- <- <-.
  fold ta in H, H2, Htr.
  match type of H2 with _ = (_, ?w1, ?t1) =>
    exists model, trained,
      [Call_print_arguments args;
       Call_FeatureExtractor_from_pretrained (Args.base_model args);
       Call_Tokenizer_from_pretrained (Args.base_model args) (Args.task args);
       Call_Processor_from_pretrained (Args.base_model args) (Args.task args);
       Call_load_dataset "json" (Args.train_data args) (Args.test_data args);
       Call_cast_column "audio" 16000;
       Call_with_transform;
       Call_DataCollator;
       Call_Model_from_pretrained (Args.base_model args) true "auto";
       Call_prepare_model_for_int8_training
         (set_suppress_tokens [] (set_forced_decoder_ids None m0)) "proj_out";
       Call_get_peft_model m1 lora_config;
       Call_print rule;
       Call_print_trainable_parameters model;
       Call_print rule;
       Call_Seq2SeqTrainer ta model;
       Call_train (Args.resume_from_checkpoint args)], w1, t1
  end.
  change (TrainingArguments.local_rank ta) with (process_local_rank L) in H.
  change (TrainingArguments.output_dir ta) with "output" in H.
  destruct (process_local_rank L =? 0).
  - exists [Call_save_pretrained trained "output"].
    split; [|split; [|split; [exact H2|split; [exact Htr|]]]].
    + unfold model_save_pretrained in H.
      destruct (save_pretrained L trained "output" _) as [r fs].
      injection H as _ _ <-. simpl. rewrite !app_nil_r. reflexivity.
    + repeat (constructor; [simpl; tauto|]). constructor.
    + split; [reflexivity|].
      unfold model_save_pretrained in *.
      destruct (save_pretrained L trained "output" _) as [r fs].
      injection H as -> <- <-. reflexivity.
  - injection H as <- <-. exists [].
    split; [|split; [|split; [exact H2|split; [exact Htr|split; reflexivity]]]].
    + simpl. rewrite !app_nil_r. reflexivity.
    + repeat (constructor; [simpl; tauto|]). constructor.
Qed.

(** *** The state after each checkpoint event *)

Lemma training_loop_prefix ta e1 e2 w w' t :
  training_loop L ta (e1 ++ e2) w = (inr tt, w', t) ->
  exists w1 t1 t2,
    training_loop L ta e1 w = (inr tt, w1, t1) /\
    training_loop L ta e2 w1 = (inr tt, w', t2) /\
    t = t1 ++ t2.
Proof.
  revert w t. induction e1 as [|ev e1 IH]; simpl; intros w t H.
  - exists w, [], t. auto.
  - step_inr H H1.
    destruct (IH _ _ H) as (w1 & t1 & t2 & Ha & Hb & ->).
    exists w1. eexists. exists t2. split; [|split; [exact Hb|]].
    + match type of H1 with _ = (inr ?u, _, _) => destruct u end.
      rewrite (bind_inr _ _ _ _ _ _ _ _ _ H1 Ha). reflexivity.
    + apply app_assoc.
Qed.

Lemma trainer_checkpoint_snapshot_absent ta ev w w' t :
  trainer_checkpoint L ta ev w = (inr tt, w', t) ->
  files w' !! snapshot_path (TrainingArguments.output_dir ta) (ev_step ev) = None.
Proof.
  unfold trainer_checkpoint. intros H.
  step_inr H H1. step_inr H H2. injection H as <- _.
  apply on_save_spec in H2 as (_ & _ & Hret).
  destruct (Hret _ eq_refl) as (_ & model & fs1 & _ & _ & Hf & _).
  simpl in Hf. rewrite Hf. apply lookup_delete_eq.
Qed.

Lemma training_loop_snapshot_absent ta evs ev w w' t :
  training_loop L ta (evs ++ [ev]) w = (inr tt, w', t) ->
  files w' !! snapshot_path (TrainingArguments.output_dir ta) (ev_step ev) = None.
Proof.
  intros H. apply training_loop_prefix in H as (w1 & t1 & t2 & _ & H & _).
  simpl in H. step_inr H H1. injection H as <- _.
  match type of H1 with _ = (inr ?u, _, _) => destruct u end.
  eapply trainer_checkpoint_snapshot_absent, H1.
Qed.

(** *** Counting the saves to the top-level directory *)

Lemma count_saves_app dir (t1 t2 : list (call waveform network)) :
  count_saves_to dir (t1 ++ t2) = (count_saves_to dir t1 + count_saves_to dir t2)%nat.
Proof. unfold count_saves_to. rewrite List.filter_app. apply length_app. Qed.

Lemma count_saves_none dir (t : list (call waveform network)) :
  Forall (fun c => is_save_to dir c = false) t -> count_saves_to dir t = 0%nat.
Proof.
  unfold count_saves_to. induction 1 as [|c t Hc _ IH]; simpl; [reflexivity|].
  rewrite Hc. exact IH.
Qed.

Lemma not_fs_call_no_save dir (c : call waveform network) :
  ~ is_fs_call c -> is_save_to dir c = false.
Proof. destruct c; simpl; intros H; try reflexivity; exfalso; apply H; exact I. Qed.

Lemma loop_call_no_save (c : call waveform network) :
  loop_call "output" c -> is_save_to "output" c = false.
Proof.
  intros [N [-> | [[model ->] | ->]]]; simpl; try reflexivity.
  apply String.eqb_neq. apply adapter_path_under_output.
Qed.

(** A completed run, on a process of any local rank.  Before training
    nothing is saved or removed; during training every call is the generic
    trainer's checkpoint under [output], the save of the model into
    [output/checkpoint-N/adapter_model] or the removal of
    [output/checkpoint-N/pytorch_model.bin], and right after each
    checkpoint event that snapshot file is absent.  What follows the
    training is decided by the guard on line 127 alone: at local rank 0 the
    trained model is saved to [output], as the last call of the run and its
    only save to that directory; at any other rank, -1 included, the run
    ends with the training and never saves there. *)
Lemma completed_run args w w' t :
  main L args w = (inr tt, w', t) ->
  let ta := make_training_args L args in
  TrainingArguments.output_dir ta = "output" /\
  exists model trained t_before t_loop,
    Forall (fun c => ~ is_fs_call c) t_before /\
    Forall (loop_call "output") t_loop /\
    (forall evs ev rest,
       checkpoint_events L ta (set_use_cache false model) (Args.resume_from_checkpoint args)
       = evs ++ ev :: rest ->
       exists w_mid t_mid,
         training_loop L ta (evs ++ [ev]) w = (inr tt, w_mid, t_mid) /\
         files w_mid !! snapshot_path "output" (ev_step ev) = None) /\
    t = t_before ++ t_loop ++
        (if process_local_rank L =? 0
         then [Call_save_pretrained trained "output"] else []) /\
    count_saves_to "output" t = if process_local_rank L =? 0 then 1%nat else 0%nat.
Proof.
  intros H ta. split; [reflexivity|].
  apply main_inv in H
    as (model & trained & t_before & w_loop & t_loop & t_final & -> & Hb & Hloop & _ & Hfin).
  fold ta in Hloop.
  pose proof (training_loop_calls _ _ _ _ _ _ Hloop) as Hcalls.
  change (TrainingArguments.output_dir ta) with "output" in Hcalls.
  assert (H0b : count_saves_to "output" t_before = 0%nat).
  { apply count_saves_none. eapply Forall_impl; [exact Hb|].
    intros c. apply not_fs_call_no_save. }
  assert (H0l : count_saves_to "output" t_loop = 0%nat).
  { apply count_saves_none. eapply Forall_impl; [exact Hcalls|].
    intros c. apply loop_call_no_save. }
  exists model, trained, t_before, t_loop.
  split; [exact Hb|]. split; [exact Hcalls|]. split; [|split].
  - intros evs ev rest Hev. rewrite Hev in Hloop.
    change (evs ++ ev :: rest) with (evs ++ [ev] ++ rest) in Hloop.
    rewrite app_assoc in Hloop.
    apply training_loop_prefix in Hloop as (w_mid & t_mid & t2 & Hmid & _ & _).
    exists w_mid, t_mid. split; [exact Hmid|].
    apply training_loop_snapshot_absent in Hmid. exact Hmid.
  - destruct (process_local_rank L =? 0); destruct Hfin as [-> _]; reflexivity.
  - rewrite !count_saves_app, H0b, H0l.
    destruct (process_local_rank L =? 0); destruct Hfin as [-> _]; reflexivity.
Qed.

End Script.

(** * The statements on concrete runs *)

Module Runs.
Import Sample.

(** C1.  The final save is lost on a plain single-process launch.  The
    local rank of the training arguments is -1 by default, the value of a
    process started without a distributed launcher, and the guard on line
    127 compares the rank with 0.  With the default arguments the run then
    completes: the training is started, both checkpoints are taken, each
    with the model saved into
    [output/checkpoint-N/adapter_model] and the snapshot
    [output/checkpoint-N/pytorch_model.bin] removed; the removal at step
    1000 is the last call of the run.  No call saves a model to [output],
    and nothing is written at the top level of the output location. *)
Theorem final_save_lost_at_rank_minus_1 :
  exists w' t,
    main (library (-1)) Args.default world0 = (inr tt, w', t) /\
    In (Call_train None) t /\
    last t = Some (Call_os_remove "output/checkpoint-1000/pytorch_model.bin") /\
    count_saves_to "output" t = 0%nat /\
    files w' !! "output/checkpoint-500/adapter_model" = Some Dir /\
    files w' !! "output/checkpoint-1000/adapter_model" = Some Dir /\
    files w' !! "output/checkpoint-500/pytorch_model.bin" = None /\
    files w' !! "output/checkpoint-1000/pytorch_model.bin" = None /\
    files w' !! "output" = None /\
    files w' !! "output/adapter_model.bin" = None.
Proof.
  pose (run := main (library (-1)) Args.default world0).
  exists run.1.2, run.2.
  split; [vm_compute; reflexivity|].
  split; [vm_compute; tauto|].
  repeat split; vm_compute; reflexivity.
Qed.

(** The same run on a process of local rank 0 ends with the save of the
    trained model to [output], its only save there. *)
Example final_save_at_rank_0 :
  exists w' t trained,
    main (library 0) Args.default world0 = (inr tt, w', t) /\
    last t = Some (Call_save_pretrained trained "output") /\
    count_saves_to "output" t = 1%nat /\
    files w' !! "output" = Some Dir.
Proof.
  pose (run := main (library 0) Args.default world0).
  assert (Hrun : main (library 0) Args.default world0 = (inr tt, run.1.2, run.2))
    by (vm_compute; reflexivity).
  destruct (completed_run (library 0) Args.default world0 _ _ Hrun)
    as (_ & model & trained & tb & tl & _ & _ & _ & Ht & Hc).
  exists run.1.2, run.2, trained.
  split; [exact Hrun|]. split; [|split; [exact Hc|vm_compute; reflexivity]].
  rewrite Ht. simpl. rewrite !app_assoc. apply last_snoc.
Qed.

(** On a process of local rank 1 the guard skips the save as well. *)
Example no_final_save_at_rank_1 :
  exists w' t,
    main (library 1) Args.default world0 = (inr tt, w', t) /\
    count_saves_to "output" t = 0%nat.
Proof.
  pose (run := main (library 1) Args.default world0).
  assert (Hrun : main (library 1) Args.default world0 = (inr tt, run.1.2, run.2))
    by (vm_compute; reflexivity).
  exists run.1.2, run.2. split; [exact Hrun|].
  destruct (completed_run (library 1) Args.default world0 _ _ Hrun)
    as (_ & model & trained & tb & tl & _ & _ & _ & _ & Hc).
  exact Hc.
Qed.

Lemma on_save_checkpoint_layout_witness :
  exists w' t,
    on_save (library 0) training_args {| global_step := 500 |} control0
      {[ "model" := model0 ]} world500 = (inr control0, w', t) /\
    files w' !! "output/checkpoint-500/pytorch_model.bin" = None.
Proof.
  destruct (on_save_checkpoint_layout (library 0) training_args 500 control0
              {[ "model" := model0 ]} world500) as (_ & _ & _ & Hpart & Htot).
  destruct (Htot model0
              (save_pretrained (library 0) model0
                 (adapter_path "output" 500) (files world500)).2)
    as (w' & t & Hrun).
  - vm_compute. reflexivity.
  - reflexivity.
  - vm_compute. discriminate.
  - exists w', t. split; [exact Hrun|].
    destruct (Hpart _ _ _ Hrun) as (m & fs & _ & _ & _ & Habs & _). exact Habs.
Defined.

Lemma cleanup_absent_is_noop_witness :
  remove_unneeded_model (network := nat) "output/checkpoint-500" world0
  = (inr tt, world0, []).
Proof.
  apply (cleanup_absent_is_noop (network := nat) "output/checkpoint-500" world0).
  vm_compute. reflexivity.
Defined.

Lemma prepare_dataset_batch_witness :
  exists new_batch w' t,
    prepare_dataset (network := nat) feature_extractor tokenizer 0%nat world_batch
    = (inr new_batch, w', t).
Proof.
  destruct (prepare_dataset_batch (network := nat) feature_extractor tokenizer 0%nat
              world_batch batch0 audios0 ["hello"; "world"]) as [_ Htot].
  - vm_compute. reflexivity.
  - vm_compute. reflexivity.
  - vm_compute. reflexivity.
  - apply Htot.
    + intros a _. exists (array a), []. reflexivity.
    + intros s0 _. eexists. reflexivity.
Defined.

Lemma base_model_check_witness :
  main (library 0) args_bare world0
  = (inl (AssertionError (assertion_message "whisper-large-v2")), world0,
     [Call_print_arguments args_bare]) /\
  exists res w' t,
    main (library 0) Args.default world0
    = (res, w',
       Call_print_arguments Args.default
       :: Call_FeatureExtractor_from_pretrained "openai/whisper-large-v2" :: t).
Proof.
  split.
  - apply (base_model_check (library 0) args_bare world0).
    vm_compute. discriminate.
  - apply (base_model_check (library 0) Args.default world0).
    vm_compute. reflexivity.
Defined.

Lemma build_model_steps_witness :
  exists t,
    build_model (library 0) Args.default world0
    = (inr (set_suppress_tokens [] (set_forced_decoder_ids None model0)), world0, t).
Proof.
  destruct (build_model_steps (library 0) Args.default world0) as (_ & _ & Htot).
  apply (Htot model0 (set_suppress_tokens [] (set_forced_decoder_ids None model0))
           (set_suppress_tokens [] (set_forced_decoder_ids None model0)));
    reflexivity.
Defined.

Lemma on_save_returns_control_witness :
  exists w' t,
    on_save (library 0) training_args {| global_step := 500 |} control0
      {[ "model" := model0 ]} world500 = (inr control0, w', t) /\
    heap w' = heap world500.
Proof.
  destruct (on_save_returns_control (library 0) training_args {| global_step := 500 |}
              control0 {[ "model" := model0 ]} world500) as (Hpart & Htot).
  destruct (Htot model0
              (save_pretrained (library 0) model0
                 (adapter_path "output" 500) (files world500)).2)
    as (w' & t & Hrun).
  - vm_compute. reflexivity.
  - reflexivity.
  - vm_compute. discriminate.
  - exists w', t. split; [exact Hrun|].
    destruct (Hpart _ _ _ Hrun) as (_ & Hh & _). exact Hh.
Defined.

Lemma prepare_dataset_is_pure_witness :
  heap (prepare_dataset (network := nat) feature_extractor tokenizer 0%nat world_batch).1.2
    !! 0%nat = Some batch0.
Proof.
  pose (run := prepare_dataset (network := nat) feature_extractor tokenizer 0%nat world_batch).
  destruct (prepare_dataset_is_pure (network := nat) feature_extractor tokenizer 0%nat
              world_batch run.1.1 run.1.2 run.2) as (_ & Hheap & _).
  - vm_compute. reflexivity.
  - change (heap run.1.2 !! 0%nat = Some batch0). rewrite (Hheap 0%nat).
    + vm_compute. reflexivity.
    + apply elem_of_dom. exists batch0. vm_compute. reflexivity.
Defined.

Lemma feature_extractor_rate_16000_witness :
  Forall (at_rate 16000)
    (Dataset_getitem (library 0)
       {| rows := [ {| audio_path := "a.wav"; sentence := "hello" |};
                    {| audio_path := "b.wav"; sentence := "world" |} ];
          audio_feature := Some 16000;
          format_transform := Some (prepare_dataset feature_extractor tokenizer) |}
       [0%nat; 1%nat] world0).2.
Proof.
  pose (loaded := load_data (library 0) Args.default
                    (prepare_dataset feature_extractor tokenizer) world0).
  destruct (feature_extractor_rate_16000 (library 0) Args.default feature_extractor
              tokenizer world0
              {| train := {| rows := [ {| audio_path := "a.wav"; sentence := "hello" |};
                                       {| audio_path := "b.wav"; sentence := "world" |} ];
                             audio_feature := Some 16000;
                             format_transform :=
                               Some (prepare_dataset feature_extractor tokenizer) |};
                 test := {| rows := [ {| audio_path := "c.wav"; sentence := "test" |} ];
                            audio_feature := Some 16000;
                            format_transform :=
                              Some (prepare_dataset feature_extractor tokenizer) |} |}
              loaded.1.2 loaded.2) as (_ & Hsplits).
  - intros rate path a [= <-]. reflexivity.
  - reflexivity.
  - destruct (Hsplits _ (or_introl eq_refl)) as (_ & Hread). simpl in Hread.
    match goal with |- Forall _ (?c).2 => pose (run := c) end.
    apply (Hread [0%nat; 1%nat] world0 run.1.1 run.1.2 run.2).
    vm_compute. reflexivity.
Defined.

End Runs.

(** * Further properties *)

(** ** Paths *)

Section Paths.

Lemma append_cons c (s b : string) : String c s +:+ b = String c (s +:+ b).
Proof. reflexivity. Qed.

Lemma append_nil_l (b : string) : "" +:+ b = b.
Proof. reflexivity. Qed.

Lemma append_assoc (a b c : string) : (a +:+ b) +:+ c = a +:+ (b +:+ c).
Proof.
  induction a as [|x a IH]; [reflexivity|]. rewrite !append_cons, IH. reflexivity.
Qed.

Lemma contains_sep_app (a b : string) :
  contains_sep (a +:+ b) = (contains_sep a || contains_sep b)%bool.
Proof.
  induction a as [|c a IH]; [reflexivity|]. rewrite append_cons. simpl.
  rewrite IH. apply orb_assoc.
Qed.

Lemma all_sep_app (a b : string) :
  all_sep (a +:+ b) = (all_sep a && all_sep b)%bool.
Proof.
  induction a as [|c a IH]; [reflexivity|]. rewrite append_cons. simpl.
  rewrite IH. apply andb_assoc.
Qed.

Lemma endswith_sep_app (a b : string) :
  b <> "" -> endswith_sep (a +:+ b) = endswith_sep b.
Proof.
  intros Hb. induction a as [|c a IH]; [reflexivity|]. rewrite append_cons. simpl.
  destruct (a +:+ b) eqn:E; [|exact IH].
  destruct a; [rewrite append_nil_l in E; contradiction|discriminate].
Qed.

Lemma upto_last_sep_nosep (s : string) :
  contains_sep s = false -> upto_last_sep s = "".
Proof.
  destruct s as [|c s]; simpl; [reflexivity|]. intros ->. reflexivity.
Qed.

(** A path is its head followed by a last component without separator. *)
Lemma upto_last_sep_split (p : string) :
  exists name, p = upto_last_sep p +:+ name /\ contains_sep name = false.
Proof.
  induction p as [|c p (name & Hp & Hn)]; simpl.
  - exists "". auto.
  - destruct (Ascii.eqb c sep || contains_sep p)%bool eqn:E.
    + exists name. rewrite append_cons, <- Hp. auto.
    + exists (String c p). auto.
Qed.

Lemma upto_last_sep_ends (p : string) :
  upto_last_sep p = "" \/ endswith_sep (upto_last_sep p) = true.
Proof.
  induction p as [|c p IH]; simpl; [auto|].
  destruct (Ascii.eqb c sep) eqn:Ec; simpl.
  - right. destruct IH as [-> | IH]; [exact Ec|].
    destruct (upto_last_sep p); [discriminate|exact IH].
  - destruct (contains_sep p) eqn:Ep; [|auto]. right.
    destruct IH as [E | IH].
    + exfalso. destruct (upto_last_sep_split p) as (name & Hp & Hn).
      rewrite E, append_nil_l in Hp. subst name. congruence.
    + destruct (upto_last_sep p); [discriminate|exact IH].
Qed.

Lemma upto_last_sep_app (a rest : string) :
  contains_sep rest = true ->
  upto_last_sep (a +:+ rest) = a +:+ upto_last_sep rest.
Proof.
  intros Hr. induction a as [|c a IH]; [reflexivity|]. rewrite !append_cons. simpl.
  rewrite contains_sep_app, Hr, orb_true_r, orb_true_r, IH. reflexivity.
Qed.

Lemma upto_last_sep_seps (seps name : string) :
  all_sep seps = true -> contains_sep name = false ->
  upto_last_sep (seps +:+ name) = seps.
Proof.
  intros Hs Hn. induction seps as [|c seps IH].
  - apply upto_last_sep_nosep, Hn.
  - simpl in Hs. apply andb_true_iff in Hs as [Hc Hs].
    rewrite append_cons. simpl. rewrite Hc. simpl. rewrite IH by exact Hs. reflexivity.
Qed.

Lemma all_sep_contains (seps : string) :
  all_sep seps = true -> seps <> "" -> contains_sep seps = true.
Proof.
  destruct seps as [|c seps]; simpl; [contradiction|].
  intros H _. apply andb_true_iff in H as [-> _]. reflexivity.
Qed.

Lemma rstrip_sep_all (s : string) : all_sep s = true -> rstrip_sep s = "".
Proof. destruct s as [|c s]; simpl; [reflexivity|]. intros ->. reflexivity. Qed.

Lemma rstrip_sep_inv (s : string) :
  exists seps, s = rstrip_sep s +:+ seps /\ all_sep seps = true.
Proof.
  induction s as [|c s (seps & Hs & Ha)].
  - exists "". auto.
  - cbn [rstrip_sep]. destruct (all_sep (String c s)) eqn:E.
    + exists (String c s). auto.
    + exists seps. rewrite append_cons, <- Hs. auto.
Qed.

Lemma not_endswith_not_all_sep (a : string) :
  a <> "" -> endswith_sep a = false -> all_sep a = false.
Proof.
  induction a as [|c a IH]; [contradiction|]. intros _ He. simpl.
  destruct a as [|c' a].
  - simpl in He. rewrite He. reflexivity.
  - apply andb_false_iff. right. apply IH; [discriminate|exact He].
Qed.

Lemma rstrip_sep_app (a seps : string) :
  a <> "" -> endswith_sep a = false -> all_sep seps = true ->
  rstrip_sep (a +:+ seps) = a.
Proof.
  intros Ha He Hs. induction a as [|c a IH]; [contradiction|].
  rewrite append_cons. cbn [rstrip_sep].
  assert (Hall : all_sep (String c (a +:+ seps)) = false).
  { rewrite <- append_cons, all_sep_app.
    rewrite (not_endswith_not_all_sep _ Ha He). reflexivity. }
  rewrite Hall. destruct a as [|c' a].
  - rewrite append_nil_l, rstrip_sep_all by exact Hs. reflexivity.
  - rewrite IH; [reflexivity|discriminate|exact He].
Qed.

(** X1. Line 38 accepts exactly the identifiers made of [openai], one or
    more slashes, and a last part without slash. *)
Theorem accepted_base_models (p : string) :
  os_path_dirname p = "openai" <->
  exists seps name,
    p = "openai" +:+ seps +:+ name /\
    seps <> "" /\ all_sep seps = true /\ contains_sep name = false.
Proof.
  unfold os_path_dirname. split.
  - intros H. destruct (upto_last_sep_split p) as (name & Hp & Hn).
    destruct (negb (String.eqb (upto_last_sep p) "") && negb (all_sep (upto_last_sep p)))%bool
      eqn:E.
    + destruct (rstrip_sep_inv (upto_last_sep p)) as (seps & Hh & Hs).
      rewrite H in Hh. exists seps, name.
      split; [rewrite Hp at 1; rewrite Hh; apply append_assoc|].
      split; [|auto].
      intros ->. destruct (upto_last_sep_ends p) as [E0 | E1].
      * rewrite E0 in Hh. discriminate.
      * rewrite Hh in E1. discriminate.
    + rewrite H in E. discriminate.
  - intros (seps & name & -> & Hne & Hs & Hn).
    rewrite upto_last_sep_app
      by (rewrite contains_sep_app, (all_sep_contains seps Hs Hne); reflexivity).
    rewrite upto_last_sep_seps by assumption.
    assert (E : (negb (String.eqb ("openai" +:+ seps) "")
                 && negb (all_sep ("openai" +:+ seps)))%bool = true) by reflexivity.
    rewrite E. apply rstrip_sep_app; [discriminate|reflexivity|exact Hs].
Qed.

Lemma append_nil_r (s : string) : s +:+ "" = s.
Proof. induction s as [|c s IH]; [reflexivity|]. rewrite append_cons, IH. reflexivity. Qed.

Lemma nosep_not_startswith (b : string) : contains_sep b = false -> startswith_sep b = false.
Proof.
  destruct b as [|c b]; simpl; [reflexivity|]. intros H.
  apply orb_false_iff in H as [-> _]. reflexivity.
Qed.

Lemma endswith_contains (s : string) : endswith_sep s = true -> contains_sep s = true.
Proof.
  induction s as [|c s IH]; simpl; [discriminate|].
  destruct s as [|c' s]; [intros ->; reflexivity|].
  intros H. rewrite (IH H). apply orb_true_r.
Qed.

Lemma upto_last_sep_dir (a b : string) :
  endswith_sep a = true -> contains_sep b = false -> upto_last_sep (a +:+ b) = a.
Proof.
  intros Ha Hb. induction a as [|c a IH]; [discriminate|].
  rewrite append_cons. simpl. destruct a as [|c' a].
  - simpl in Ha. rewrite Ha, append_nil_l. simpl.
    rewrite (upto_last_sep_nosep b Hb). reflexivity.
  - change (endswith_sep (String c' a) = true) in Ha.
    rewrite contains_sep_app, (endswith_contains _ Ha), orb_true_r, IH by exact Ha.
    reflexivity.
Qed.

(** [dirname] undoes [join] with a single component, up to the slashes
    the directory ends with. *)
Lemma dirname_join (a b : string) :
  a <> "" -> all_sep a = false -> contains_sep b = false ->
  os_path_dirname (os_path_join a b) = rstrip_sep a.
Proof.
  intros Ha Hall Hb. unfold os_path_join.
  rewrite (nosep_not_startswith b Hb).
  assert (Hne : String.eqb a "" = false) by (apply String.eqb_neq; exact Ha).
  rewrite Hne. simpl orb. unfold os_path_dirname.
  destruct (endswith_sep a) eqn:He.
  - rewrite (upto_last_sep_dir a b He Hb), Hne, Hall. reflexivity.
  - change (String sep b) with (String sep "" +:+ b). rewrite <- append_assoc.
    assert (He' : endswith_sep (a +:+ String sep "") = true)
      by (rewrite endswith_sep_app by discriminate; reflexivity).
    rewrite (upto_last_sep_dir _ b He' Hb).
    assert (Hne' : String.eqb (a +:+ String sep "") "" = false).
    { apply String.eqb_neq. destruct a; [contradiction|discriminate]. }
    rewrite Hne', all_sep_app, Hall. simpl.
    rewrite (rstrip_sep_app a (String sep "") Ha He eq_refl).
    destruct (rstrip_sep_inv a) as (seps & Hs & Hseps).
    destruct seps as [|c seps].
    + rewrite append_nil_r in Hs. exact Hs.
    + exfalso. rewrite Hs in He. rewrite endswith_sep_app in He by discriminate.
      clear Hs. revert c Hseps He. induction seps as [|c' seps IH]; intros c Hseps He.
      * simpl in *. rewrite andb_true_r in Hseps. congruence.
      * simpl in Hseps. apply andb_true_iff in Hseps as [_ Hseps].
        apply (IH c' Hseps). exact He.
Qed.

(** *** The decimal form of a step is one path component *)

Lemma pretty_N_char_not_sep (x : N) : Ascii.eqb (pretty_N_char x) sep = false.
Proof. unfold pretty_N_char. repeat case_match; reflexivity. Qed.

Lemma pretty_N_go_nosep (x : N) (s : string) :
  contains_sep s = false -> contains_sep (pretty_N_go x s) = false.
Proof.
  revert s. induction (N.lt_wf_0 x) as [x _ IH]; intros s Hs.
  destruct (decide (x = 0)%N) as [->|Hx]; [exact Hs|].
  rewrite pretty_N_go_step by lia. apply IH.
  - apply N.div_lt; lia.
  - simpl. rewrite pretty_N_char_not_sep, Hs. reflexivity.
Qed.

Lemma pretty_N_go_nonempty (x : N) (s : string) :
  s <> "" -> pretty_N_go x s <> "".
Proof.
  revert s. induction (N.lt_wf_0 x) as [x _ IH]; intros s Hs.
  destruct (decide (x = 0)%N) as [->|Hx]; [exact Hs|].
  rewrite pretty_N_go_step by lia. apply IH; [apply N.div_lt; lia|discriminate].
Qed.

Lemma pretty_N_component (x : N) : contains_sep (pretty x) = false /\ pretty x <> "".
Proof.
  unfold pretty, pretty_N. destruct (decide (x = 0)%N) as [->|Hx].
  - split; [reflexivity|discriminate].
  - split; [apply pretty_N_go_nosep; reflexivity|].
    rewrite pretty_N_go_step by lia. apply pretty_N_go_nonempty. discriminate.
Qed.

Lemma pretty_Z_component (N : Z) : contains_sep (pretty N) = false /\ pretty N <> "".
Proof.
  unfold pretty, pretty_Z. destruct N as [|x|x].
  - split; [reflexivity|discriminate].
  - apply (pretty_N_component (Npos x)).
  - destruct (pretty_N_component (Npos x)) as [H1 H2]. split.
    + change (pretty x) with (pretty (Npos x)). rewrite append_cons, append_nil_l.
      simpl. exact H1.
    + discriminate.
Qed.

Lemma checkpoint_name_component (N : Z) :
  contains_sep ("checkpoint-" +:+ pretty N) = false.
Proof. rewrite contains_sep_app. rewrite (proj1 (pretty_Z_component N)). reflexivity. Qed.

Lemma checkpoint_folder_shape (dir : string) (N : Z) :
  exists pre, checkpoint_folder dir N = pre +:+ "checkpoint-" +:+ pretty N /\
              (pre = dir \/ pre = dir +:+ String sep "").
Proof.
  unfold checkpoint_folder, os_path_join.
  rewrite (nosep_not_startswith _ (checkpoint_name_component N)).
  destruct (String.eqb dir "" || endswith_sep dir)%bool.
  - exists dir. auto.
  - exists (dir +:+ String sep ""). split; [|auto].
    rewrite append_assoc. reflexivity.
Qed.

Lemma checkpoint_folder_proper (dir : string) (N : Z) :
  checkpoint_folder dir N <> "" /\ endswith_sep (checkpoint_folder dir N) = false.
Proof.
  destruct (checkpoint_folder_shape dir N) as (pre & -> & _).
  assert (Hname : "checkpoint-" +:+ pretty N <> "") by discriminate.
  split.
  - destruct pre; [exact Hname|discriminate].
  - rewrite endswith_sep_app by exact Hname.
    destruct (endswith_sep ("checkpoint-" +:+ pretty N)) eqn:E; [|reflexivity].
    apply endswith_contains in E. rewrite checkpoint_name_component in E. discriminate.
Qed.

Lemma rstrip_sep_proper (a : string) :
  a <> "" -> endswith_sep a = false -> rstrip_sep a = a.
Proof.
  intros Ha He. rewrite <- (append_nil_r a) at 1. apply rstrip_sep_app; auto.
Qed.

Lemma child_path (dir : string) (N : Z) (name : string) :
  contains_sep name = false ->
  os_path_join (checkpoint_folder dir N) name
  = checkpoint_folder dir N +:+ String sep name /\
  os_path_dirname (os_path_join (checkpoint_folder dir N) name) = checkpoint_folder dir N.
Proof.
  intros Hn. destruct (checkpoint_folder_proper dir N) as [Hne He]. split.
  - unfold os_path_join at 1. rewrite (nosep_not_startswith name Hn), He.
    assert (E : String.eqb (checkpoint_folder dir N) "" = false)
      by (apply String.eqb_neq; exact Hne).
    rewrite E. reflexivity.
  - rewrite dirname_join; [apply rstrip_sep_proper; assumption|assumption| |assumption].
    apply not_endswith_not_all_sep; assumption.
Qed.

Lemma checkpoint_folder_prefix (dir : string) :
  exists P, forall N, checkpoint_folder dir N = P +:+ pretty N.
Proof.
  unfold checkpoint_folder, os_path_join.
  destruct (String.eqb dir "" || endswith_sep dir)%bool.
  - exists (dir +:+ "checkpoint-"). intros N.
    rewrite (nosep_not_startswith _ (checkpoint_name_component N)).
    rewrite append_assoc. reflexivity.
  - exists (dir +:+ String sep "checkpoint-"). intros N.
    rewrite (nosep_not_startswith _ (checkpoint_name_component N)).
    rewrite append_assoc. reflexivity.
Qed.

Lemma append_inv_head (a x y : string) : a +:+ x = a +:+ y -> x = y.
Proof.
  induction a as [|c a IH]; [auto|]. rewrite !append_cons. intros [= H]. auto.
Qed.

Lemma checkpoint_folder_inj (dir : string) (N M : Z) :
  checkpoint_folder dir N = checkpoint_folder dir M -> N = M.
Proof.
  destruct (checkpoint_folder_prefix dir) as [P HP]. rewrite !HP.
  intros H. apply append_inv_head in H. apply (inj pretty). exact H.
Qed.

Lemma prefix_cons a b (s1 s2 : string) :
  String.prefix (String a s1) (String b s2)
  = if ascii_dec a b then String.prefix s1 s2 else false.
Proof. reflexivity. Qed.

Lemma prefix_app_head (a x y : string) :
  String.prefix (a +:+ x) (a +:+ y) = String.prefix x y.
Proof.
  induction a as [|c a IH]; [reflexivity|]. rewrite !append_cons, prefix_cons.
  destruct (ascii_dec c c); [exact IH|contradiction].
Qed.

Lemma prefix_components (x y s1 s2 : string) :
  contains_sep x = false -> contains_sep y = false ->
  String.prefix (String sep s1) (String sep s2) = false ->
  String.prefix (x +:+ String sep s1) (y +:+ String sep s2) = false.
Proof.
  revert y. induction x as [|c x IH]; intros y Hx Hy H.
  - rewrite append_nil_l. destruct y as [|c' y]; [exact H|].
    rewrite append_cons, prefix_cons. simpl in Hy. apply orb_false_iff in Hy as [Hc _].
    destruct (ascii_dec sep c') as [<-|]; [|reflexivity].
    rewrite Ascii.eqb_refl in Hc. discriminate.
  - rewrite append_cons. simpl in Hx. apply orb_false_iff in Hx as [Hc Hx].
    destruct y as [|c' y].
    + rewrite append_nil_l, prefix_cons.
      destruct (ascii_dec c sep) as [->|]; [|reflexivity].
      rewrite Ascii.eqb_refl in Hc. discriminate.
    + rewrite append_cons, prefix_cons. simpl in Hy. apply orb_false_iff in Hy as [_ Hy].
      destruct (ascii_dec c c'); [|reflexivity]. apply IH; assumption.
Qed.

Lemma snapshot_not_under_adapter (dir : string) (N M : Z) :
  String.prefix (adapter_path dir N) (snapshot_path dir M) = false.
Proof.
  unfold adapter_path, snapshot_path.
  rewrite (proj1 (child_path dir N "adapter_model" eq_refl)).
  rewrite (proj1 (child_path dir M "pytorch_model.bin" eq_refl)).
  destruct (checkpoint_folder_prefix dir) as [P HP]. rewrite !HP.
  rewrite !append_assoc, prefix_app_head.
  apply prefix_components; [apply pretty_Z_component..|reflexivity].
Qed.

(** X2. Whatever the output directory, [adapter_model] and
    [pytorch_model.bin] lie directly inside the checkpoint folder of their
    step, and that folder lies directly inside the output directory. *)
Theorem checkpoint_layout (dir : string) (N : Z) :
  os_path_dirname (adapter_path dir N) = checkpoint_folder dir N /\
  os_path_dirname (snapshot_path dir N) = checkpoint_folder dir N /\
  (dir <> "" -> all_sep dir = false ->
   os_path_dirname (checkpoint_folder dir N) = rstrip_sep dir).
Proof.
  split; [apply child_path; reflexivity|]. split; [apply child_path; reflexivity|].
  intros Hd Hda. unfold checkpoint_folder.
  apply dirname_join; [exact Hd|exact Hda|apply checkpoint_name_component].
Qed.

Lemma adapter_path_inj (dir : string) (N M : Z) :
  adapter_path dir N = adapter_path dir M -> N = M.
Proof.
  unfold adapter_path. intros H. apply (f_equal os_path_dirname) in H.
  rewrite !(proj2 (child_path dir _ "adapter_model" eq_refl)) in H.
  apply (checkpoint_folder_inj dir), H.
Qed.

Lemma snapshot_path_inj (dir : string) (N M : Z) :
  snapshot_path dir N = snapshot_path dir M -> N = M.
Proof.
  unfold snapshot_path. intros H. apply (f_equal os_path_dirname) in H.
  rewrite !(proj2 (child_path dir _ "pytorch_model.bin" eq_refl)) in H.
  apply (checkpoint_folder_inj dir), H.
Qed.

(** X3. Different steps never share a checkpoint folder, an adapter
    directory or a snapshot path, and no snapshot path is an adapter
    directory or lies inside one. *)
Theorem checkpoint_paths_distinct (dir : string) (N M : Z) :
  (checkpoint_folder dir N = checkpoint_folder dir M -> N = M) /\
  (adapter_path dir N = adapter_path dir M -> N = M) /\
  (snapshot_path dir N = snapshot_path dir M -> N = M) /\
  String.prefix (adapter_path dir N) (snapshot_path dir M) = false.
Proof.
  split; [apply checkpoint_folder_inj|]. split; [apply adapter_path_inj|].
  split; [apply snapshot_path_inj|apply snapshot_not_under_adapter].
Qed.

End Paths.

(** ** The callback, beyond the normal return *)

Section Callback_outcomes.
Context {waveform features network : Type}.
Variable L : Library waveform features network.
Implicit Types (w : world waveform features) (t : list (call waveform network)).



(** X6. Provided [save_pretrained] writes only at paths that start with
    the directory it is given, the callback, whatever its outcome, changes
    no path other than the snapshot and those that start with the adapter
    directory: the rest of the checkpoint and every other checkpoint are as
    the generic trainer left them. *)
Theorem on_save_frame ta state control kwargs w res w' t :
  let dir := TrainingArguments.output_dir ta in
  let N := global_step state in
  (forall model d fs p,
     String.prefix d p = false -> (save_pretrained L model d fs).2 !! p = fs !! p) ->
  on_save L ta state control kwargs w = (res, w', t) ->
  forall p,
    String.prefix (adapter_path dir N) p = false ->
    p <> snapshot_path dir N ->
    files w' !! p = files w !! p.
Proof.
  intros dir N Hsave H p Hp Hsnap. rewrite on_save_unfold in H. fold dir N in H.
  destruct (kwargs !! "model") as [model|]; [|injection H as _ <- _; reflexivity].
  pose proof (Hsave model (adapter_path dir N) (files w) p Hp) as Hfs.
  destruct (save_pretrained L model (adapter_path dir N) (files w)) as [[e1|[]] fs1] eqn:Hs;
    simpl in Hfs.
  { injection H as _ <- _. exact Hfs. }
  destruct (remove_unneeded_model (checkpoint_folder dir N) (set_files fs1 w))
    as [[r2 w2] t2] eqn:Hr.
  apply remove_unneeded_spec in Hr as (_ & _ & Hok & Herr).
  fold (snapshot_path dir N) in Hok, Herr.
  destruct r2 as [e2|[]]; injection H as _ <- _.
  - destruct (Herr e2 eq_refl) as [-> _]. exact Hfs.
  - rewrite (Hok eq_refl). simpl. rewrite lookup_delete_ne by congruence. exact Hfs.
Qed.

(** X7. Once the callback has returned, everything the adapter save left
    at or below the adapter directory is still there: the removal of the
    snapshot cannot reach it. *)
Theorem on_save_keeps_adapter ta state control kwargs w c w' t :
  let dir := TrainingArguments.output_dir ta in
  let N := global_step state in
  on_save L ta state control kwargs w = (inr c, w', t) ->
  exists model fs1,
    kwargs !! "model" = Some model /\
    save_pretrained L model (adapter_path dir N) (files w) = (inr tt, fs1) /\
    forall p, String.prefix (adapter_path dir N) p = true -> files w' !! p = fs1 !! p.
Proof.
  intros dir N H. apply on_save_spec in H as (_ & _ & Hret).
  destruct (Hret c eq_refl) as (_ & model & fs1 & Hm & Hs & Hf & _).
  exists model, fs1. split; [exact Hm|]. split; [exact Hs|].
  intros p Hp. simpl in Hf. fold dir N in Hf. rewrite Hf.
  apply lookup_delete_ne. intros <-.
  rewrite (snapshot_not_under_adapter dir N N) in Hp. discriminate.
Qed.

(** X8. The cleanup step is idempotent: after any run of it that returns,
    a second run finds nothing to remove, returns and changes nothing; and
    the first run changed no path but the snapshot. *)
Theorem cleanup_idempotent folder w w' t :
  remove_unneeded_model (network := network) folder w = (inr tt, w', t) ->
  remove_unneeded_model (network := network) folder w' = (inr tt, w', []) /\
  heap w' = heap w /\
  forall p, p <> os_path_join folder "pytorch_model.bin" -> files w' !! p = files w !! p.
Proof.
  intros H. apply remove_unneeded_spec in H as (Hh & _ & Hok & _).
  specialize (Hok eq_refl). split; [|split; [exact Hh|]].
  - apply remove_unneeded_absent. rewrite Hok. apply lookup_delete_eq.
  - intros p Hp. rewrite Hok. apply lookup_delete_ne. congruence.
Qed.

End Callback_outcomes.

(** ** The preprocessing function, case by case *)

Section Traverse_failure.
Context {A B : Type} (g : A -> exn + B).

Lemma traverse_first_failure pre a post e :
  (forall x, In x pre -> exists y, g x = inr y) -> g a = inl e ->
  traverse g (pre ++ a :: post) = inl e /\ attempted g (pre ++ a :: post) = pre ++ [a].
Proof.
  intros Hpre Ha. induction pre as [|x pre IH]; simpl.
  - rewrite Ha. auto.
  - destruct (Hpre x (or_introl eq_refl)) as [y ->].
    destruct (IH (fun x' Hx' => Hpre x' (or_intror Hx'))) as [-> ->]. auto.
Qed.

End Traverse_failure.

Section Preprocessing_cases.
Context {waveform features network : Type}.
Local Abbreviation M := (M waveform features network).
Implicit Types (w : world waveform features) (t : list (call waveform network)).

(** [prepare_dataset] on any batch dictionary, outcome by outcome. *)
Lemma prepare_dataset_cases fe tok batch w d :
  heap w !! batch = Some d ->
  let l := fresh (dom (heap w)) in
  let calls_fe := map (fun a => Call_feature_extractor (array a) (sampling_rate a)) in
  let w1 := set_heap (<[l := ∅]> (heap w)) w in
  prepare_dataset (network := network) fe tok batch w =
  match d !! "audio" with
  | None => (inl (KeyError "audio"), w1, [])
  | Some (VAudio audios) =>
      match traverse (extract fe) audios with
      | inl e => (inl e, w1, calls_fe (attempted (extract fe) audios))
      | inr input_features =>
          let row1 : gmap string (pyval waveform features) :=
            <["input_features" := VFeatures input_features]> ∅ in
          let w2 := set_heap (<[l := row1]> (heap w)) w in
          match d !! "sentence" with
          | None => (inl (KeyError "sentence"), w2, calls_fe audios)
          | Some (VSentence sentences) =>
              match traverse tok sentences with
              | inl e => (inl e, w2,
                          calls_fe audios ++ map Call_tokenizer (attempted tok sentences))
              | inr labels =>
                  (inr l,
                   set_heap (<[l := <["labels" := VLabels labels]> row1]> (heap w)) w,
                   calls_fe audios ++ map Call_tokenizer sentences)
              end
          | Some _ => (inl TypeError, w2, calls_fe audios)
          end
      end
  | Some _ => (inl TypeError, w1, [])
  end.
Proof.
  intros Hb l calls_fe w1.
  assert (Hne : l <> batch).
  { intros E. pose proof (is_fresh (dom (heap w))) as Hf. fold l in Hf.
    apply Hf. rewrite E. apply elem_of_dom. eauto. }
  assert (Hb1 : heap w1 !! batch = Some d).
  { simpl. rewrite lookup_insert_ne by exact Hne. exact Hb. }
  unfold prepare_dataset.
  rewrite (bind_eq_inr _ _ w l w1 []) by reflexivity.
  destruct (d !! "audio") as [va|] eqn:Ha.
  2:{ rewrite (bind_inl _ _ w1 (KeyError "audio") w1 []); [reflexivity|].
      apply bind_inl. unfold getitem. rewrite Hb1, Ha. reflexivity. }
  assert (Hget : getitem (network := network) batch "audio" w1 = (inr va, w1, []))
    by (eapply getitem_eq; eauto).
  destruct va as [audios|x|x|x];
    try (rewrite (bind_inl _ _ w1 TypeError w1 []);
         [reflexivity|rewrite (bind_eq_inr _ _ w1 _ w1 [] Hget); reflexivity]).
  rewrite (bind_eq_inr _ _ w1 audios w1 [])
    by (rewrite (bind_eq_inr _ _ w1 _ w1 [] Hget); reflexivity).
  rewrite (bind_eq _ _ w1 _ w1 _
             (for_each_stateless _ (extract fe) _ audios w1 (extract_body fe))).
  fold (calls_fe (attempted (extract fe) audios)).
  destruct (traverse (extract fe) audios) as [e|input_features] eqn:Hfe; [reflexivity|].
  apply traverse_inr in Hfe as [_ ->].
  assert (Hl1 : heap w1 !! l = Some ∅) by apply lookup_insert_eq.
  rewrite (bind_eq_inr _ _ w1 tt _ [] (setitem_eq l _ _ w1 ∅ Hl1)).
  set (row1 := <["input_features" := VFeatures input_features]> ∅).
  set (w2 := set_heap _ w1).
  assert (Hw2 : w2 = set_heap (<[l := row1]> (heap w)) w).
  { subst w2 w1. unfold set_heap. simpl. f_equal. apply insert_insert_eq. }
  assert (Hb2 : heap w2 !! batch = Some d).
  { subst w2. simpl. rewrite !lookup_insert_ne by exact Hne. exact Hb. }
  assert (Hl2 : heap w2 !! l = Some row1) by apply lookup_insert_eq.
  destruct (d !! "sentence") as [vs|] eqn:Hs.
  2:{ rewrite (bind_inl _ _ w2 (KeyError "sentence") w2 []).
      - simpl. rewrite app_nil_r, Hw2. reflexivity.
      - apply bind_inl. unfold getitem. rewrite Hb2, Hs. reflexivity. }
  assert (Hget2 : getitem (network := network) batch "sentence" w2 = (inr vs, w2, []))
    by (eapply getitem_eq; eauto).
  destruct vs as [x|sentences|x|x];
    try (rewrite (bind_inl _ _ w2 TypeError w2 []);
         [simpl; rewrite app_nil_r, Hw2; reflexivity
         |rewrite (bind_eq_inr _ _ w2 _ w2 [] Hget2); reflexivity]).
  rewrite (bind_eq_inr _ _ w2 sentences w2 [])
    by (rewrite (bind_eq_inr _ _ w2 _ w2 [] Hget2); reflexivity).
  rewrite (bind_eq _ _ w2 _ w2 _
             (for_each_stateless _ tok Call_tokenizer sentences w2
                (fun s w => invoke_eq (Call_tokenizer s) (tok s) w))).
  destruct (traverse tok sentences) as [e|labels] eqn:Htok.
  { simpl. rewrite Hw2. reflexivity. }
  apply traverse_inr in Htok as [_ ->].
  rewrite (bind_eq_inr _ _ w2 tt _ [] (setitem_eq l _ _ w2 row1 Hl2)).
  unfold ret. simpl. rewrite !app_nil_r. rewrite Hw2. unfold set_heap. simpl.
  rewrite !insert_insert_eq. reflexivity.
Qed.

(** X9. When [prepare_dataset] returns it has called the feature
    extractor once per audio record, in order, each with that record's own
    array and sampling rate, and only then the tokenizer once per
    transcript, in order; an empty batch makes no call. *)
Theorem prepare_dataset_call_order fe tok batch w d audios sentences new_batch w' t :
  heap w !! batch = Some d ->
  d !! "audio" = Some (VAudio audios) ->
  d !! "sentence" = Some (VSentence sentences) ->
  prepare_dataset (network := network) fe tok batch w = (inr new_batch, w', t) ->
  t = map (fun a => Call_feature_extractor (array a) (sampling_rate a)) audios
      ++ map Call_tokenizer sentences.
Proof.
  intros Hb Ha Hs. rewrite (prepare_dataset_cases fe tok batch w d Hb), Ha, Hs.
  destruct (traverse (extract fe) audios); [discriminate|].
  destruct (traverse tok sentences); [discriminate|].
  intros [= _ _ <-]. reflexivity.
Qed.

(** X10. The first audio record on which feature extraction fails (the
    extractor raises, or returns no feature so that [[0]] raises
    [IndexError]) ends [prepare_dataset] with that exception: the later
    records are not extracted, the transcript column is not even read, the
    tokenizer is never called, and the input batch is as before. *)
Theorem prepare_dataset_extraction_failure fe tok batch w d pre a post e :
  heap w !! batch = Some d ->
  d !! "audio" = Some (VAudio (pre ++ a :: post)) ->
  (forall x, In x pre -> exists f rest, fe (array x) (sampling_rate x) = inr (f :: rest)) ->
  (fe (array a) (sampling_rate a) = inl e \/
   fe (array a) (sampling_rate a) = inr [] /\ e = IndexError) ->
  exists w',
    prepare_dataset (network := network) fe tok batch w
    = (inl e, w',
       map (fun x => Call_feature_extractor (array x) (sampling_rate x)) (pre ++ [a])) /\
    heap w' !! batch = Some d /\ files w' = files w.
Proof.
  intros Hb Ha Hpre Hfail.
  rewrite (prepare_dataset_cases fe tok batch w d Hb), Ha.
  assert (Hg : extract fe a = inl e).
  { unfold extract. destruct Hfail as [-> | [-> ->]]; reflexivity. }
  destruct (traverse_first_failure (extract fe) pre a post e) as [-> ->]; [|exact Hg|].
  { intros x Hx. destruct (Hpre x Hx) as (f & rest & Hx'). exists f.
    unfold extract. rewrite Hx'. reflexivity. }
  eexists. split; [reflexivity|]. split; [|reflexivity].
  simpl. rewrite lookup_insert_ne; [exact Hb|].
  intros E. pose proof (is_fresh (dom (heap w))) as Hf. apply Hf.
  rewrite E. apply elem_of_dom. eauto.
Qed.

(** X11. When every audio record is extracted but the tokenizer raises on
    a transcript, [prepare_dataset] ends with that exception after calling
    the tokenizer on the transcripts up to that one only; the dictionary it
    was building holds [input_features] alone and is not returned. *)
Theorem prepare_dataset_tokenizer_failure fe tok batch w d audios pre s post e :
  heap w !! batch = Some d ->
  d !! "audio" = Some (VAudio audios) ->
  d !! "sentence" = Some (VSentence (pre ++ s :: post)) ->
  (forall a, In a audios -> exists f rest, fe (array a) (sampling_rate a) = inr (f :: rest)) ->
  (forall x, In x pre -> exists ids, tok x = inr ids) ->
  tok s = inl e ->
  exists w' input_features,
    prepare_dataset (network := network) fe tok batch w
    = (inl e, w',
       map (fun a => Call_feature_extractor (array a) (sampling_rate a)) audios
       ++ map Call_tokenizer (pre ++ [s])) /\
    heap w' !! fresh (dom (heap w))
    = Some (<["input_features" := VFeatures input_features]> ∅) /\
    length input_features = length audios /\
    heap w' !! batch = Some d.
Proof.
  intros Hb Ha Hs Hfe Hpre Hfail.
  rewrite (prepare_dataset_cases fe tok batch w d Hb), Ha, Hs.
  destruct (traverse_total (extract fe) audios) as [input_features Hx].
  { intros a Hin. destruct (Hfe a Hin) as (f & rest & Hx).
    exists f. unfold extract. rewrite Hx. reflexivity. }
  rewrite Hx. apply traverse_inr in Hx as [Hx _].
  destruct (traverse_first_failure tok pre s post e Hpre Hfail) as [-> ->].
  eexists. exists input_features. split; [reflexivity|].
  split; [apply lookup_insert_eq|].
  split; [symmetry; eapply Forall2_length; eassumption|].
  simpl. rewrite lookup_insert_ne; [exact Hb|].
  intros E. pose proof (is_fresh (dom (heap w))) as Hf. apply Hf.
  rewrite E. apply elem_of_dom. eauto.
Qed.

(** X12. A batch without the [audio] column raises [KeyError] before any
    call is made.  A batch with audio but without the [sentence] column
    raises [KeyError] only after the feature extractor has been called on
    every audio record. *)
Theorem prepare_dataset_missing_column fe tok batch w d :
  heap w !! batch = Some d ->
  (d !! "audio" = None ->
   exists w', prepare_dataset (network := network) fe tok batch w
              = (inl (KeyError "audio"), w', [])) /\
  (forall audios,
     d !! "audio" = Some (VAudio audios) ->
     d !! "sentence" = None ->
     (forall a, In a audios -> exists f rest, fe (array a) (sampling_rate a) = inr (f :: rest)) ->
     exists w', prepare_dataset (network := network) fe tok batch w
                = (inl (KeyError "sentence"), w',
                   map (fun a => Call_feature_extractor (array a) (sampling_rate a)) audios)).
Proof.
  intros Hb. rewrite (prepare_dataset_cases fe tok batch w d Hb). split.
  - intros ->. eauto.
  - intros audios -> -> Hfe.
    destruct (traverse_total (extract fe) audios) as [input_features ->]; [|eauto].
    intros a Hin. destruct (Hfe a Hin) as (f & rest & Hx).
    exists f. unfold extract. rewrite Hx. reflexivity.
Qed.

End Preprocessing_cases.

(** ** The script, whatever its outcome *)

Section Script_outcomes.
Context {waveform features network : Type}.
Variable L : Library waveform features network.
Local Abbreviation M := (M waveform features network).
Implicit Types (w : world waveform features) (t : list (call waveform network)).

Local Abbreviation quiet c := (is_save_to "output" c = false).

Lemma saves_only_last_of_calls r t : Forall (fun c => quiet c) t -> saves_only_last r t.
Proof. intros H. exists t, []. rewrite app_nil_r. auto. Qed.

Lemma saves_only_last_bind {X Y} (c : M X) (k : X -> M Y) r :
  (forall w res w' t, c w = (res, w', t) -> Forall (fun c => quiet c) t) ->
  (forall a w res w' t, k a w = (res, w', t) -> saves_only_last r t) ->
  forall w res w' t, bind c k w = (res, w', t) -> saves_only_last r t.
Proof.
  intros Hc Hk w res w' t H.
  apply bind_inv in H as [(e & H & _) | (a & w1 & t1 & t2 & H1 & H2 & ->)].
  - apply saves_only_last_of_calls. eapply Hc, H.
  - destruct (Hk _ _ _ _ _ H2) as (t0 & tf & -> & H0 & Hf).
    exists (t1 ++ t0), tf. split; [apply app_assoc|].
    split; [apply Forall_app; split; [eapply Hc, H1|exact H0]|].
    destruct Hf as [-> | (m & -> & Hin)]; [auto|].
    right. exists m. split; [reflexivity|]. apply in_or_app. auto.
Qed.

Lemma load_data_quiet args transform w res w' t :
  load_data L args transform w = (res, w', t) -> Forall (fun c => quiet c) t.
Proof.
  unfold load_data. intros H.
  apply bind_inv in H as [(e & H & _) | (a & w1 & t1 & t2 & H1 & H2 & ->)];
    [rewrite invoke_eq in H; injection H as _ _ <-; repeat constructor|].
  rewrite invoke_eq in H1. injection H1 as _ _ <-.
  apply bind_inv in H2 as [(e & H & _) | (a2 & w2 & t3 & t4 & H3 & H4 & ->)];
    [injection H as _ _ <-; repeat constructor|].
  injection H3 as _ _ <-.
  apply bind_inv in H4 as [(e & H & _) | (a3 & w3 & t5 & t6 & H5 & H6 & ->)];
    [injection H as _ _ <-; repeat constructor|].
  injection H5 as _ _ <-. injection H6 as _ _ <-. repeat constructor.
Qed.

Lemma build_model_quiet args w res w' t :
  build_model L args w = (res, w', t) -> Forall (fun c => quiet c) t.
Proof.
  rewrite build_model_unfold.
  destruct (WhisperForConditionalGeneration_from_pretrained L _ true "auto") as [e|m0];
    [intros [= _ _ <-]; repeat constructor|].
  simpl. destruct (prepare_model_for_int8_training L _ "proj_out") as [e|m1];
    [intros [= _ _ <-]; repeat constructor|].
  destruct (get_peft_model L m1 lora_config) as [e|model'];
    intros [= _ _ <-]; repeat constructor.
Qed.

Lemma trainer_train_quiet args model w res w' t :
  trainer_train L (make_training_args L args) model (Args.resume_from_checkpoint args) w
  = (res, w', t) ->
  Forall (fun c => quiet c) t /\
  (forall trained, res = inr trained -> In (Call_train (Args.resume_from_checkpoint args)) t).
Proof.
  unfold trainer_train. intros H.
  apply bind_inv in H as [(e & H & _) | (a & w1 & t1 & t2 & H1 & H2 & ->)];
    [discriminate|].
  injection H1 as _ <- <-.
  assert (Hloop : forall w0 r0 w0' t0,
            training_loop L (make_training_args L args)
              (checkpoint_events L (make_training_args L args) model
                 (Args.resume_from_checkpoint args)) w0 = (r0, w0', t0) ->
            Forall (fun c => quiet c) t0).
  { intros w0 r0 w0' t0 H0. apply training_loop_calls in H0.
    eapply Forall_impl; [exact H0|]. intros c. apply loop_call_no_save. }
  apply bind_inv in H2 as [(e & H & ->) | (a2 & w2 & t3 & t4 & H3 & H4 & ->)].
  - split; [|intros ? [=]]. constructor; [reflexivity|]. eapply Hloop, H.
  - split; [|intros; left; reflexivity].
    constructor; [reflexivity|]. apply Forall_app. split; [eapply Hloop, H3|].
    destruct (train_result L _ _ _); injection H4 as _ _ <-; constructor.
Qed.

Ltac quiet_call :=
  let H := fresh in
  intros ? ? ? ? H;
  first [ rewrite invoke_eq in H; injection H as _ _ <-
        | injection H as _ _ <- ];
  repeat constructor.

(** X13. In every run of the script, whatever its outcome, a model is
    saved to the top-level directory [output] at most once, and if it is,
    that save is the last call of the run and [trainer.train] was called
    before it. *)
Theorem top_level_save_only_last args w res w' t :
  main L args w = (res, w', t) ->
  saves_only_last (Args.resume_from_checkpoint args) t /\
  (count_saves_to "output" t <= 1)%nat.
Proof.
  intros H.
  assert (Hlast : saves_only_last (Args.resume_from_checkpoint args) t).
  { revert w res w' t H. unfold main.
    eapply saves_only_last_bind; [quiet_call|intros _].
    eapply saves_only_last_bind.
    { unfold py_assert. destruct (String.eqb _ _); quiet_call. }
    intros _. eapply saves_only_last_bind; [quiet_call|intros feature_extractor].
    eapply saves_only_last_bind; [quiet_call|intros tokenizer].
    eapply saves_only_last_bind; [quiet_call|intros processor].
    eapply saves_only_last_bind; [apply load_data_quiet|intros audio_data].
    eapply saves_only_last_bind; [quiet_call|intros _].
    eapply saves_only_last_bind; [apply build_model_quiet|intros model].
    eapply saves_only_last_bind; [quiet_call|intros _].
    eapply saves_only_last_bind; [quiet_call|intros _].
    eapply saves_only_last_bind; [quiet_call|intros _].
    eapply saves_only_last_bind; [quiet_call|intros _].
    intros w res w' t H.
    apply bind_inv in H as [(e & H & _) | (trained & w1 & t1 & t2 & H1 & H2 & ->)].
    - apply saves_only_last_of_calls. eapply trainer_train_quiet, H.
    - apply trainer_train_quiet in H1 as [Hq Hin]. specialize (Hin trained eq_refl).
      change (TrainingArguments.output_dir (make_training_args L args)) with "output" in H2.
      destruct (_ =? 0).
      + unfold model_save_pretrained in H2.
        destruct (save_pretrained L trained "output" _) as [r fs].
        injection H2 as _ _ <-. exists t1. eexists. split; [reflexivity|].
        split; [exact Hq|]. right. eauto.
      + injection H2 as _ _ <-. rewrite app_nil_r. apply saves_only_last_of_calls, Hq. }
  split; [exact Hlast|].
  destruct Hlast as (t0 & tf & -> & H0 & Hf).
  rewrite count_saves_app, (count_saves_none _ _ H0).
  destruct Hf as [-> | (m & -> & _)]; unfold count_saves_to; simpl; lia.
Qed.

End Script_outcomes.

(** ** The snapshots at the end of training *)

Section Snapshots.
Context {waveform features network : Type}.
Variable L : Library waveform features network.
Implicit Types (w : world waveform features) (t : list (call waveform network)).

(** What the statement asks of the two collaborators that write files:
    [save_pretrained] creates nothing at a path that does not start with
    its directory, and the generic trainer, checkpointing at one step,
    creates no snapshot of another step. *)
Hypothesis save_creates_below :
  forall model d fs p,
    String.prefix d p = false -> fs !! p = None ->
    (save_pretrained L model d fs).2 !! p = None.
Hypothesis trainer_creates_own :
  forall dir M model fs N,
    N <> M -> fs !! snapshot_path dir N = None ->
    (trainer_save_checkpoint L dir M model fs).2 !! snapshot_path dir N = None.

Lemma on_save_keeps_absent ta state control kwargs w res w' t N :
  files w !! snapshot_path (TrainingArguments.output_dir ta) N = None ->
  on_save L ta state control kwargs w = (res, w', t) ->
  files w' !! snapshot_path (TrainingArguments.output_dir ta) N = None.
Proof.
  set (dir := TrainingArguments.output_dir ta). set (M := global_step state).
  intros Habs H. rewrite on_save_unfold in H. fold dir M in H.
  destruct (kwargs !! "model") as [model|]; [|injection H as _ <- _; exact Habs].
  pose proof (save_creates_below model (adapter_path dir M) (files w)
                (snapshot_path dir N) (snapshot_not_under_adapter dir M N) Habs) as Hfs.
  destruct (save_pretrained L model (adapter_path dir M) (files w)) as [[e1|[]] fs1];
    simpl in Hfs.
  { injection H as _ <- _. exact Hfs. }
  destruct (remove_unneeded_model (checkpoint_folder dir M) (set_files fs1 w))
    as [[r2 w2] t2] eqn:Hr.
  apply remove_unneeded_spec in Hr as (_ & _ & Hok & Herr).
  destruct r2 as [e2|[]]; injection H as _ <- _.
  - destruct (Herr e2 eq_refl) as [-> _]. exact Hfs.
  - rewrite (Hok eq_refl). simpl. apply lookup_delete_None. auto.
Qed.

Lemma trainer_checkpoint_keeps_absent ta ev w res w' t N :
  N <> ev_step ev ->
  files w !! snapshot_path (TrainingArguments.output_dir ta) N = None ->
  trainer_checkpoint L ta ev w = (res, w', t) ->
  files w' !! snapshot_path (TrainingArguments.output_dir ta) N = None.
Proof.
  intros Hne Habs H. unfold trainer_checkpoint in H.
  pose proof (trainer_creates_own (TrainingArguments.output_dir ta) (ev_step ev)
                (ev_model ev) (files w) N Hne Habs) as Hown.
  apply bind_inv in H as [(e & H & _) | (a & w1 & t1 & t2 & H1 & H2 & _)].
  - destruct (trainer_save_checkpoint L _ _ _ _) as [r fs]. injection H as _ <- _.
    exact Hown.
  - destruct (trainer_save_checkpoint L _ _ _ _) as [r fs]. injection H1 as _ <- _.
    apply bind_inv in H2 as [(e & H & _) | (c & w2 & t3 & t4 & H3 & H4 & _)].
    + eapply on_save_keeps_absent; [|exact H]. exact Hown.
    + injection H4 as _ <- _. eapply on_save_keeps_absent; [|exact H3]. exact Hown.
Qed.

Lemma training_loop_keeps_absent ta events w res w' t N :
  (forall ev, In ev events -> N <> ev_step ev) ->
  files w !! snapshot_path (TrainingArguments.output_dir ta) N = None ->
  training_loop L ta events w = (res, w', t) ->
  files w' !! snapshot_path (TrainingArguments.output_dir ta) N = None.
Proof.
  revert w res w' t. induction events as [|ev events IH]; simpl; intros w res w' t Hne Habs H.
  - injection H as _ <- _. exact Habs.
  - apply bind_inv in H as [(e & H & _) | (a & w1 & t1 & t2 & H1 & H2 & _)].
    + eapply trainer_checkpoint_keeps_absent; [|exact Habs|exact H]. apply Hne. auto.
    + eapply IH; [|..|exact H2]; [intros; apply Hne; auto|].
      eapply trainer_checkpoint_keeps_absent; [|exact Habs|exact H1]. apply Hne. auto.
Qed.

(** X14. With collaborators that write where they are asked to, a training
    loop that completes leaves no [pytorch_model.bin] in the checkpoint
    folder of any of its checkpoint events: what the callback removed at
    one step is not brought back at a later one. *)
Theorem no_snapshot_left ta events w w' t :
  training_loop L ta events w = (inr tt, w', t) ->
  forall ev, In ev events ->
    files w' !! snapshot_path (TrainingArguments.output_dir ta) (ev_step ev) = None.
Proof.
  revert w t. induction events as [|ev events IH]; simpl; intros w t H ev0 Hin; [easy|].
  apply bind_inr_inv in H as (a & w1 & t1 & t2 & H1 & H2 & _). destruct a.
  destruct (in_dec Z.eq_dec (ev_step ev0) (map ev_step events)) as [Hlater|Hnot].
  - apply in_map_iff in Hlater as (ev1 & Hstep & Hin1). rewrite <- Hstep.
    eapply IH; eassumption.
  - destruct Hin as [<- | Hin].
    + eapply training_loop_keeps_absent; [| |exact H2].
      * intros ev1 Hin1 E. apply Hnot. rewrite E. apply in_map, Hin1.
      * unfold trainer_checkpoint in H1.
        apply bind_inr_inv in H1 as (? & ? & ? & ? & _ & H1 & _).
        apply bind_inr_inv in H1 as (? & ? & ? & ? & H1 & H3 & _).
        injection H3 as <- _.
        apply on_save_spec in H1 as (_ & _ & Hret).
        destruct (Hret _ eq_refl) as (_ & model & fs1 & _ & _ & Hf & _).
        simpl in Hf. rewrite Hf. apply lookup_delete_eq.
    + exfalso. apply Hnot. apply in_map, Hin.
Qed.

End Snapshots.

(** ** Reading the transformed dataset *)

Section Reading.
Context {waveform features network : Type}.
Variable L : Library waveform features network.
Local Abbreviation M := (M waveform features network).
Implicit Types (w : world waveform features) (t : list (call waveform network)).

(** X15. Reading rows of either split of the dataset the script builds
    returns a new dictionary whose [input_features] and [labels] follow the
    requested indices position by position: entry [i] comes from the audio
    of row [idx[i]], decoded at 16000 Hz, and from that row's transcript. *)
Theorem dataset_read_in_order args fe tok w0 dd w1 t1 :
  load_data L args (prepare_dataset fe tok) w0 = (inr dd, w1, t1) ->
  forall ds, ds = train dd \/ ds = test dd ->
  forall idx w new_batch w' t,
    Dataset_getitem L ds idx w = (inr new_batch, w', t) ->
    exists input_features labels,
      heap w' !! new_batch
      = Some (<["labels" := VLabels labels]>
                (<["input_features" := VFeatures input_features]> ∅)) /\
      Forall2 (fun i f => exists row a rest,
                 rows ds !! i = Some row /\
                 decode_example L (Some 16000) (audio_path row) = inr a /\
                 fe (array a) (sampling_rate a) = inr (f :: rest))
        idx input_features /\
      Forall2 (fun i ids => exists row,
                 rows ds !! i = Some row /\ tok (sentence row) = inr ids)
        idx labels.
Proof.
  intros Hload. apply load_data_inv in Hload as (_ & _ & tr & te & _ & ->).
  assert (Hds : forall rws idx w new_batch w' t,
            Dataset_getitem L {| rows := rws; audio_feature := Some 16000;
                                 format_transform := Some (prepare_dataset fe tok) |}
              idx w = (inr new_batch, w', t) ->
            exists input_features labels,
              heap w' !! new_batch
              = Some (<["labels" := VLabels labels]>
                        (<["input_features" := VFeatures input_features]> ∅)) /\
              Forall2 (fun i f => exists row a rest,
                         rws !! i = Some row /\
                         decode_example L (Some 16000) (audio_path row) = inr a /\
                         fe (array a) (sampling_rate a) = inr (f :: rest))
                idx input_features /\
              Forall2 (fun i ids => exists row,
                         rws !! i = Some row /\ tok (sentence row) = inr ids)
                idx labels).
  { intros rws idx w new_batch w' t H. unfold Dataset_getitem in H.
    rewrite (bind_eq _ _ _ _ _ _ (rows_lookup_eq _ idx w)) in H.
    cbn [audio_feature format_transform rows] in H.
    destruct (traverse _ idx) as [e|rs] eqn:Hrows; [discriminate|].
    apply traverse_inr in Hrows as [Hrows _].
    set (dec := fun row : raw_record => decode_example L (Some 16000) (audio_path row)) in *.
    set (cd := fun row : raw_record =>
                 Call_decode_example (waveform := waveform) (network := network)
                   (Some 16000) (audio_path row)) in *.
    rewrite (bind_eq _ _ _ _ _ _
               (for_each_stateless _ dec cd rs w (fun row w => invoke_eq (cd row) (dec row) w)))
      in H.
    destruct (traverse dec rs) as [e|audios] eqn:Hdecs; [discriminate|].
    apply traverse_inr in Hdecs as [Hdecs _].
    set (l := fresh (dom (heap w))) in *.
    set (wa := set_heap (<[l := ∅]> (heap w)) w) in *.
    rewrite (bind_eq_inr _ _ w l wa []) in H by reflexivity.
    assert (Hl : heap wa !! l = Some ∅) by apply lookup_insert_eq.
    rewrite (bind_eq_inr _ _ wa tt _ [] (setitem_eq l _ _ wa ∅ Hl)) in H.
    set (wb := set_heap _ wa) in *.
    assert (Hlb : heap wb !! l = Some (<["audio" := VAudio audios]> ∅))
      by apply lookup_insert_eq.
    rewrite (bind_eq_inr _ _ wb tt _ [] (setitem_eq l _ _ wb _ Hlb)) in H.
    set (wc := set_heap _ wb) in *.
    assert (Hlc : heap wc !! l
                  = Some (<["sentence" := VSentence (map sentence rs)]>
                            (<["audio" := VAudio audios]> ∅)))
      by apply lookup_insert_eq.
    rewrite (prepare_dataset_run fe tok l wc _ audios (map sentence rs) Hlc) in H
      by (simplify_map_eq; reflexivity).
    destruct (traverse (extract fe) audios) as [e|input_features] eqn:Hfe;
      [discriminate|].
    destruct (traverse tok (map sentence rs)) as [e|labels] eqn:Htok; [discriminate|].
    apply traverse_inr in Hfe as [Hfe _]. apply traverse_inr in Htok as [Htok _].
    simpl in H. injection H as <- <- _.
    exists input_features, labels. split; [apply lookup_insert_eq|]. split.
    - assert (Hrf : Forall2 (fun row f => exists a, dec row = inr a /\ extract fe a = inr f)
                      rs input_features).
      { eapply Forall2_trans; [|exact Hdecs|exact Hfe].
        intros row a f Hrow Ha. exists a. auto. }
      eapply Forall2_trans; [|exact Hrows|exact Hrf].
      intros i row f Hi (a & Hdec & Hx). simpl in Hi.
      destruct (rws !! i) as [row'|] eqn:Hrw; [|discriminate].
      injection Hi as ->. apply extract_inr in Hx as [rest Hx]. eauto 6.
    - apply Forall2_fmap_l in Htok.
      eapply Forall2_trans; [|exact Hrows|exact Htok].
      intros i row ids Hi Hx. simpl in Hi, Hx.
      destruct (rws !! i) as [row'|] eqn:Hrw; [|discriminate].
      injection Hi as ->. eauto. }
  intros ds [-> | ->]; simpl; apply Hds.
Qed.

End Reading.

(** * The further statements on concrete runs *)

Module More_runs.
Import Sample.

Lemma accepted_base_models_witness : os_path_dirname "openai//whisper-tiny" = "openai".
Proof.
  apply (accepted_base_models "openai//whisper-tiny").
  exists "//", "whisper-tiny". split; [reflexivity|]. split; [discriminate|].
  split; reflexivity.
Defined.

Lemma checkpoint_layout_witness :
  os_path_dirname (checkpoint_folder "output/" 500) = "output".
Proof.
  destruct (checkpoint_layout "output/" 500) as (_ & _ & H).
  rewrite H; [reflexivity|discriminate|reflexivity].
Defined.

Lemma checkpoint_paths_distinct_witness :
  adapter_path "output" 500 <> adapter_path "output" 1000.
Proof.
  intros H. apply (checkpoint_paths_distinct "output" 500 1000) in H. discriminate.
Defined.



(** The sample collaborators write where they are asked to. *)

Lemma prefix_app_self (d x : string) : String.prefix d (d +:+ x) = true.
Proof.
  induction d as [|c d IH]; [destruct x; reflexivity|].
  rewrite append_cons, prefix_cons. destruct (ascii_dec c c); [exact IH|contradiction].
Qed.

Lemma prefix_join (d b : string) :
  startswith_sep b = false -> String.prefix d (os_path_join d b) = true.
Proof.
  intros Hb. unfold os_path_join. rewrite Hb.
  destruct (String.eqb d "" || endswith_sep d)%bool; apply prefix_app_self.
Qed.

Lemma sample_save_below rank model d fs p :
  String.prefix d p = false ->
  (save_pretrained (library rank) model d fs).2 !! p = fs !! p.
Proof.
  intros Hp. simpl. rewrite !lookup_insert_ne; [reflexivity| |].
  - intros <-. rewrite <- (append_nil_r d) in Hp at 2.
    rewrite prefix_app_self in Hp. discriminate.
  - intros <-. rewrite prefix_join in Hp by reflexivity. discriminate.
Qed.

Lemma sample_trainer_own rank dir M model fs N :
  N <> M -> fs !! snapshot_path dir N = None ->
  (trainer_save_checkpoint (library rank) dir M model fs).2 !! snapshot_path dir N = None.
Proof.
  intros Hne Habs. simpl. change (checkpoint_dir dir M) with (checkpoint_folder dir M).
  rewrite !lookup_insert_ne; [exact Habs| |].
  - intros E. apply (f_equal os_path_dirname) in E.
    rewrite (proj2 (child_path dir M "optimizer.pt" eq_refl)) in E.
    unfold snapshot_path in E.
    rewrite (proj2 (child_path dir N "pytorch_model.bin" eq_refl)) in E.
    apply checkpoint_folder_inj in E. congruence.
  - intros E. apply snapshot_path_inj in E. congruence.
Qed.

Lemma on_save_frame_witness :
  files (on_save (library 0) training_args {| global_step := 500 |} control0
           {[ "model" := model0 ]} world_full).1.2
    !! "output/checkpoint-500/optimizer.pt" = Some (File "adam").
Proof.
  pose (run := on_save (library 0) training_args {| global_step := 500 |} control0
                 {[ "model" := model0 ]} world_full).
  change (files run.1.2 !! "output/checkpoint-500/optimizer.pt" = Some (File "adam")).
  rewrite (on_save_frame (library 0) training_args {| global_step := 500 |} control0
             {[ "model" := model0 ]} world_full run.1.1 run.1.2 run.2).
  - vm_compute. reflexivity.
  - intros model d fs p. apply sample_save_below.
  - vm_compute. reflexivity.
  - vm_compute. reflexivity.
  - vm_compute. discriminate.
Defined.

Lemma on_save_keeps_adapter_witness :
  exists (w' : world (list Z) (list Z)) t,
    on_save (library 0) training_args {| global_step := 500 |} control0
      {[ "model" := model0 ]} world500 = (inr control0, w', t) /\
    files w' !! "output/checkpoint-500/adapter_model/adapter_model.bin"
    = Some (File "lora").
Proof.
  pose (run := on_save (library 0) training_args {| global_step := 500 |} control0
                 {[ "model" := model0 ]} world500).
  assert (Hrun : on_save (library 0) training_args {| global_step := 500 |} control0
                   {[ "model" := model0 ]} world500 = (inr control0, run.1.2, run.2))
    by (vm_compute; reflexivity).
  exists run.1.2, run.2. split; [exact Hrun|].
  destruct (on_save_keeps_adapter (library 0) training_args {| global_step := 500 |}
              control0 {[ "model" := model0 ]} world500 control0 run.1.2 run.2 Hrun)
    as (model & fs1 & _ & Hs & Hkeep).
  rewrite Hkeep by (vm_compute; reflexivity).
  injection Hs as <-. vm_compute. reflexivity.
Defined.

Lemma cleanup_idempotent_witness :
  exists w' : world (list Z) (list Z),
    remove_unneeded_model (network := nat) "output/checkpoint-500" w'
    = (inr tt, w', []) /\
    files w' !! "output/checkpoint-500/pytorch_model.bin" = None.
Proof.
  pose (run := remove_unneeded_model (network := nat) "output/checkpoint-500" world500).
  destruct (cleanup_idempotent (network := nat) "output/checkpoint-500" world500
              run.1.2 run.2) as (Hagain & _ & _).
  - vm_compute. reflexivity.
  - exists run.1.2. split; [exact Hagain|]. vm_compute. reflexivity.
Defined.

Lemma prepare_dataset_call_order_witness :
  (prepare_dataset (network := nat) feature_extractor tokenizer 0%nat world_batch).2
  = [Call_feature_extractor [1; 2; 3] 16000; Call_feature_extractor [4; 5] 16000;
     Call_tokenizer "hello"; Call_tokenizer "world"].
Proof.
  pose (run := prepare_dataset (network := nat) feature_extractor tokenizer 0%nat
                 world_batch).
  apply (prepare_dataset_call_order (network := nat) feature_extractor tokenizer 0%nat
           world_batch batch0 audios0 ["hello"; "world"] 1%nat run.1.2 run.2);
    vm_compute; reflexivity.
Defined.

Lemma prepare_dataset_extraction_failure_witness :
  exists w',
    prepare_dataset (network := nat) strict_extractor strict_tokenizer 0%nat
      (world_of batch_bad_audio)
    = (inl (LibraryError "empty audio"), w',
       [Call_feature_extractor [1; 2; 3] 16000; Call_feature_extractor [] 16000]).
Proof.
  destruct (prepare_dataset_extraction_failure (network := nat) strict_extractor
              strict_tokenizer 0%nat (world_of batch_bad_audio) batch_bad_audio
              [ {| array := [1; 2; 3]; sampling_rate := 16000 |} ]
              {| array := []; sampling_rate := 16000 |}
              [ {| array := [4; 5]; sampling_rate := 16000 |} ]
              (LibraryError "empty audio")) as (w' & Hrun & _).
  - vm_compute. reflexivity.
  - vm_compute. reflexivity.
  - intros x [<- | []]. eexists _, _. reflexivity.
  - left. reflexivity.
  - exists w'. exact Hrun.
Defined.

Lemma prepare_dataset_tokenizer_failure_witness :
  exists w',
    prepare_dataset (network := nat) strict_extractor strict_tokenizer 0%nat
      (world_of batch_bad_text)
    = (inl (LibraryError "empty text"), w',
       [Call_feature_extractor [1; 2; 3] 16000; Call_feature_extractor [4; 5] 16000;
        Call_tokenizer "hello"; Call_tokenizer ""]).
Proof.
  destruct (prepare_dataset_tokenizer_failure (network := nat) strict_extractor
              strict_tokenizer 0%nat (world_of batch_bad_text) batch_bad_text
              audios0 ["hello"] "" ["world"] (LibraryError "empty text"))
    as (w' & feats & Hrun & _).
  - vm_compute. reflexivity.
  - vm_compute. reflexivity.
  - vm_compute. reflexivity.
  - intros a [<- | [<- | []]]; eexists _, _; reflexivity.
  - intros x [<- | []]. eexists. reflexivity.
  - reflexivity.
  - exists w'. exact Hrun.
Defined.

Lemma prepare_dataset_missing_column_witness :
  (exists w', prepare_dataset (network := nat) feature_extractor tokenizer 0%nat
                (world_of ∅) = (inl (KeyError "audio"), w', [])) /\
  (exists w', prepare_dataset (network := nat) feature_extractor tokenizer 0%nat
                (world_of batch_no_text)
              = (inl (KeyError "sentence"), w',
                 [Call_feature_extractor [1; 2; 3] 16000;
                  Call_feature_extractor [4; 5] 16000])).
Proof.
  split.
  - apply (prepare_dataset_missing_column (network := nat) feature_extractor tokenizer
             0%nat (world_of ∅) ∅); vm_compute; reflexivity.
  - destruct (prepare_dataset_missing_column (network := nat) feature_extractor tokenizer
                0%nat (world_of batch_no_text) batch_no_text) as [_ H].
    + vm_compute. reflexivity.
    + apply (H audios0).
      * vm_compute. reflexivity.
      * vm_compute. reflexivity.
      * intros a _. eexists _, _. reflexivity.
Defined.

Lemma top_level_save_only_last_witness :
  (count_saves_to "output" (main (library 0) Args.default world0).2 <= 1)%nat.
Proof.
  pose (run := main (library 0) Args.default world0).
  apply (top_level_save_only_last (library 0) Args.default world0 run.1.1 run.1.2 run.2).
  vm_compute. reflexivity.
Defined.

Lemma no_snapshot_left_witness :
  files (training_loop (library 0) training_args events0 world0).1.2
    !! "output/checkpoint-500/pytorch_model.bin" = None.
Proof.
  pose (run := training_loop (library 0) training_args events0 world0).
  apply (no_snapshot_left (library 0)
           (fun model d fs p Hp Habs =>
              eq_trans (sample_save_below 0 model d fs p Hp) Habs)
           (sample_trainer_own 0)
           training_args events0 world0 run.1.2 run.2
           ltac:(vm_compute; reflexivity)
           {| ev_step := 500; ev_model := model0; ev_control := control0 |}).
  left. reflexivity.
Defined.

Lemma dataset_read_in_order_witness :
  exists new_batch (w' : world (list Z) (list Z)) t,
    Dataset_getitem (library 0)
      {| rows := [ {| audio_path := "a.wav"; sentence := "hello" |};
                   {| audio_path := "b.wav"; sentence := "world" |} ];
         audio_feature := Some 16000;
         format_transform := Some (prepare_dataset feature_extractor tokenizer) |}
      [1%nat; 0%nat] world0 = (inr new_batch, w', t) /\
    exists input_features,
      heap w' !! new_batch
      = Some (<["labels" := VLabels [[50258; 5; 50257]; [50258; 5; 50257]]]>
                (<["input_features" := VFeatures input_features]> ∅)).
Proof.
  match goal with |- exists _ _ _, ?c = _ /\ _ => pose (run := c) end.
  pose (loaded := load_data (library 0) Args.default
                    (prepare_dataset feature_extractor tokenizer) world0).
  assert (Hrun : run = (inr 1%nat, run.1.2, run.2)) by (vm_compute; reflexivity).
  exists 1%nat, run.1.2, run.2. split; [exact Hrun|].
  destruct (dataset_read_in_order (library 0) Args.default feature_extractor tokenizer
              world0
              {| train := {| rows := [ {| audio_path := "a.wav"; sentence := "hello" |};
                                       {| audio_path := "b.wav"; sentence := "world" |} ];
                             audio_feature := Some 16000;
                             format_transform :=
                               Some (prepare_dataset feature_extractor tokenizer) |};
                 test := {| rows := [ {| audio_path := "c.wav"; sentence := "test" |} ];
                            audio_feature := Some 16000;
                            format_transform :=
                              Some (prepare_dataset feature_extractor tokenizer) |} |}
              loaded.1.2 loaded.2 eq_refl _ (or_introl eq_refl)
              [1%nat; 0%nat] world0 1%nat run.1.2 run.2 Hrun)
    as (feats & labels & Hheap & _ & Hlab).
  exists feats. rewrite Hheap. do 3 f_equal.
  inversion Hlab as [|i ids idx' labels' (row & Hr & Ht) Hrest]; subst.
  inversion Hrest as [|i2 ids2 idx2 labels2 (row2 & Hr2 & Ht2) Hrest2]; subst.
  inversion Hrest2; subst.
  simpl in Hr, Hr2. injection Hr as <-. injection Hr2 as <-.
  injection Ht as <-. injection Ht2 as <-. reflexivity.
Defined.

End More_runs.
